(** * tcping: a shallow embedding of [src/main.go]

    The development follows the layout of the Go source: the statistics
    aggregator ([Statistics.update], [Statistics.getStats]), the address
    resolver ([resolveAddress]), one probe attempt ([pingOnce]), the summary
    printer ([printTCPingStatistics]), option validation ([validateOptions])
    and the probe loop together with the shutdown [select] of [main]. *)

From Stdlib Require Import String Ascii DecimalString DecimalPos ZArith Bool Lia List.
From Stdlib Require Import Floats.SpecFloat.
Import ListNotations.

Local Open Scope Z_scope.

(** ** Machine numbers *)

(** Go's [int64] (and [int] on the 64-bit targets of the build matrix):
    an integer in [-2^63, 2^63) whose arithmetic wraps around. *)
Module Int64.

Definition modulus : Z := 2 ^ 64.
Definition half_modulus : Z := 2 ^ 63.
Definition max_int : Z := half_modulus - 1.

Definition wrap (z : Z) : Z := (z + half_modulus) mod modulus - half_modulus.

Definition add (a b : Z) : Z := wrap (a + b).
Definition sub (a b : Z) : Z := wrap (a - b).
Definition incr (a : Z) : Z := add a 1.

Definition in_range (z : Z) : Prop := - half_modulus <= z <= max_int.

End Int64.

(** Go's [float64]: IEEE 754 binary64, as the standard library's executable
    specification of binary floating point at precision 53 and [emax] 1024. *)
Module F64.

Definition t : Type := spec_float.

Definition prec : Z := 53.
Definition emax : Z := 1024.

Definition zero : t := S754_zero false.

Definition add : t -> t -> t := SFadd prec emax.
Definition mul : t -> t -> t := SFmul prec emax.
Definition div : t -> t -> t := SFdiv prec emax.

(** [x < y], [x <= y] and [x > y] of Go: false as soon as one side is NaN. *)
Definition ltb : t -> t -> bool := SFltb.
Definition leb : t -> t -> bool := SFleb.
Definition gtb (x y : t) : bool := SFltb y x.

(** The conversion [float64(n)] of an integer, rounding to nearest even. *)
Definition of_int (n : Z) : t := binary_normalize prec emax n 0 false.

Definition is_nan (x : t) : bool :=
  match x with S754_nan => true | _ => false end.

End F64.

(** ** The statistics aggregator *)

(** [type Statistics struct].  The embedded [sync.Mutex] makes [update] and
    [getStats] atomic; here each of them is one function on the record. *)
Record Statistics : Type := mkStatistics {
  sentCount : Z;
  respondedCount : Z;
  minTime : F64.t;
  maxTime : F64.t;
  totalTime : F64.t
}.

(** [&Statistics{}]: every field has Go's zero value. *)
Definition newStatistics : Statistics :=
  mkStatistics 0 0 F64.zero F64.zero F64.zero.

Definition set_minTime (s : Statistics) (x : F64.t) : Statistics :=
  mkStatistics (sentCount s) (respondedCount s) x (maxTime s) (totalTime s).

Definition set_maxTime (s : Statistics) (x : F64.t) : Statistics :=
  mkStatistics (sentCount s) (respondedCount s) (minTime s) x (totalTime s).

(** [func (s *Statistics) update(elapsed float64, success bool)] *)
Definition update (s : Statistics) (elapsed : F64.t) (success : bool) : Statistics :=
  (* s.sentCount++ *)
  let s := mkStatistics (Int64.incr (sentCount s)) (respondedCount s)
                        (minTime s) (maxTime s) (totalTime s) in
  if negb success then s
  else
    (* s.respondedCount++ ; s.totalTime += elapsed *)
    let s := mkStatistics (sentCount s) (Int64.incr (respondedCount s))
                          (minTime s) (maxTime s) (F64.add (totalTime s) elapsed) in
    if respondedCount s =? 1 then
      mkStatistics (sentCount s) (respondedCount s) elapsed elapsed (totalTime s)
    else
      let s := if F64.ltb elapsed (minTime s) then set_minTime s elapsed else s in
      let s := if F64.gtb elapsed (maxTime s) then set_maxTime s elapsed else s in
      s.

(** The five results of [getStats]. *)
Record Snapshot : Type := mkSnapshot {
  snap_sent : Z;
  snap_responded : Z;
  snap_min : F64.t;
  snap_max : F64.t;
  snap_avg : F64.t
}.

(** [func (s *Statistics) getStats() (sent, responded int64, min, max, avg float64)] *)
Definition getStats (s : Statistics) : Snapshot :=
  let avg := F64.zero in
  let avg := if 0 <? respondedCount s
             then F64.div (totalTime s) (F64.of_int (respondedCount s))
             else avg in
  mkSnapshot (sentCount s) (respondedCount s) (minTime s) (maxTime s) avg.

(** A history of [update] calls, oldest first, and the state it leads to. *)
Definition call : Type := (F64.t * bool)%type.

Definition apply_call (s : Statistics) (c : call) : Statistics :=
  update s (fst c) (snd c).

Definition run_from (s : Statistics) (calls : list call) : Statistics :=
  fold_left apply_call calls s.

Definition run (calls : list call) : Statistics := run_from newStatistics calls.

(** The elapsed values of the successful calls, in call order. *)
Definition successes (calls : list call) : list F64.t :=
  map fst (filter snd calls).

(** The running sum as the code accumulates it: left to right from [+0]. *)
Definition sum_elapsed (es : list F64.t) : F64.t := fold_left F64.add es F64.zero.

(** No counter has wrapped: the history is shorter than [2^63] calls. *)
Definition within_int64 (calls : list call) : Prop :=
  Z.of_nat (length calls) <= Int64.max_int.

(** Elapsed times are numbers ([pingOnce] divides a microsecond count by 1000). *)
Definition elapsed_are_numbers (calls : list call) : Prop :=
  Forall (fun e => F64.is_nan e = false) (successes calls).

(** The aggregator invariant of the data model. *)
Definition stats_inv (s : Statistics) : Prop :=
  0 <= respondedCount s <= sentCount s /\
  (1 <= respondedCount s -> F64.leb (minTime s) (maxTime s) = true).

(** States reachable from the zero state by [update] calls with numeric
    elapsed times, indexed by the number of calls made. *)
Inductive reachable : nat -> Statistics -> Prop :=
| reach_init : reachable 0 newStatistics
| reach_update n s elapsed success :
    reachable n s ->
    (success = true -> F64.is_nan elapsed = false) ->
    reachable (S n) (update s elapsed success).

(** What a history tells about the state it leads to. *)
Definition summarises (calls : list call) (s : Statistics) : Prop :=
  sentCount s = Z.of_nat (length calls) /\
  respondedCount s = Z.of_nat (length (successes calls)) /\
  totalTime s = sum_elapsed (successes calls) /\
  (forall e, In e (successes calls) ->
     F64.leb (minTime s) e = true /\ F64.leb e (maxTime s) = true).

(** The elapsed time of an attempt as [pingOnce] computes it:
    [float64(time.Since(start).Microseconds()) / 1000.0]. *)
Definition elapsed_of_micros (us : Z) : F64.t :=
  F64.div (F64.of_int us) (F64.of_int 1000).

(** A short history: 2.5 ms answered, a failure after 7 ms, 1.25 ms answered. *)
Definition sample_calls : list call :=
  [ (elapsed_of_micros 2500, true);
    (elapsed_of_micros 7000, false);
    (elapsed_of_micros 1250, true) ].

(** ** Results of fallible functions *)

Inductive result (A E : Type) : Type :=
| Ok (a : A)
| Err (e : E).
Arguments Ok {A E} a.
Arguments Err {A E} e.

(** ** The address resolver *)

(** The part of Go's [net] package that [resolveAddress] calls.  [ParseIP]
    is [None] where Go returns [nil]; [isV4 ip] is [ip.To4() != nil];
    [LookupIP] is the answer of the system resolver, a candidate list or an
    error text. *)
Class NetLib : Type := {
  IP : Type;
  ParseIP : string -> option IP;
  isV4 : IP -> bool;
  IPString : IP -> string;
  LookupIP : string -> result (list IP) string
}.

(** The errors [resolveAddress] builds with [fmt.Errorf], by message. *)
Inductive resolve_error : Type :=
| NotIPv4 (address : string)            (* the literal is not an IPv4 address *)
| NotIPv6 (address : string)            (* the literal is not an IPv6 address *)
| LookupFailed (address err : string)   (* the lookup returned an error *)
| NoAddress (address : string)          (* the lookup returned no address *)
| NoIPv4Address (address : string)      (* no IPv4 address among the candidates *)
| NoIPv6Address (address : string)      (* no IPv6 address among the candidates *)
| IndexOutOfRange.                      (* run-time panic of [ipList[0]] *)

(** The two errors raised for a literal of the wrong family. *)
Definition family_mismatch (e : resolve_error) : bool :=
  match e with
  | NotIPv4 _ | NotIPv6 _ => true
  | _ => false
  end.

(** ["[" + s + "]"] *)
Definition bracket (s : string) : string := ("[" ++ s ++ "]")%string.

Section Resolver.

Context {net : NetLib}.

(** [for _, ip := range ipList { if ip.To4() != nil { return ip.String(), nil } }] *)
Fixpoint first_v4 (ipList : list IP) : option IP :=
  match ipList with
  | [] => None
  | ip :: rest => if isV4 ip then Some ip else first_v4 rest
  end.

(** [for _, ip := range ipList { if ip.To4() == nil { return "[" + ip.String() + "]", nil } }] *)
Fixpoint first_v6 (ipList : list IP) : option IP :=
  match ipList with
  | [] => None
  | ip :: rest => if negb (isV4 ip) then Some ip else first_v6 rest
  end.

(** [func resolveAddress(address string, useIPv4, useIPv6 bool) (string, error)] *)
Definition resolveAddress (address : string) (useIPv4 useIPv6 : bool)
  : result string resolve_error :=
  match ParseIP address with
  | Some ip =>
      let v4 := isV4 ip in
      if useIPv4 && negb v4 then Err (NotIPv4 address)
      else if useIPv6 && v4 then Err (NotIPv6 address)
      else if negb v4 then Ok (bracket (IPString ip))
      else Ok (IPString ip)
  | None =>
      match LookupIP address with
      | Err err => Err (LookupFailed address err)
      | Ok ipList =>
          if (length ipList =? 0)%nat then Err (NoAddress address)
          else if useIPv4 then
            match first_v4 ipList with
            | Some ip => Ok (IPString ip)
            | None => Err (NoIPv4Address address)
            end
          else if useIPv6 then
            match first_v6 ipList with
            | Some ip => Ok (bracket (IPString ip))
            | None => Err (NoIPv6Address address)
            end
          else
            match first_v4 ipList with
            | Some ip => Ok (IPString ip)
            | None =>
                match first_v6 ipList with
                | Some ip => Ok (bracket (IPString ip))
                | None =>
                    match nth_error ipList 0 with
                    | Some ip =>
                        if negb (isV4 ip) then Ok (bracket (IPString ip))
                        else Ok (IPString ip)
                    | None => Err IndexOutOfRange
                    end
                end
            end
      end
  end.

(** [func getIPType(address string) (isIPv4, isIPv6 bool)] *)
Definition getIPType (address : string) : bool * bool :=
  match ParseIP address with
  | None => (false, false)
  | Some ip => (isV4 ip, negb (isV4 ip))
  end.

(** [ip] is the first element of [ipList] that satisfies [p]. *)
Definition first_such (p : IP -> bool) (ipList : list IP) (ip : IP) : Prop :=
  exists before after,
    ipList = before ++ ip :: after /\
    p ip = true /\
    forall x, In x before -> p x = false.

End Resolver.

(** A table instance of [NetLib] for worked examples: the two loopback
    literals with the answers Go's [net] gives for them, and three names with
    fixed lookup answers.  Every other string is an unknown name. *)
Module Fixture.

Inductive addr : Type := Loopback4 | Loopback6.

Definition parse (s : string) : option addr :=
  if String.eqb s "127.0.0.1" then Some Loopback4
  else if String.eqb s "::1" then Some Loopback6
  else None.

Definition is_v4 (a : addr) : bool :=
  match a with Loopback4 => true | Loopback6 => false end.

Definition text (a : addr) : string :=
  match a with Loopback4 => "127.0.0.1" | Loopback6 => "::1" end.

Definition lookup (s : string) : result (list addr) string :=
  if String.eqb s "localhost" then Ok [Loopback6; Loopback4]
  else if String.eqb s "ip6-localhost" then Ok [Loopback6]
  else if String.eqb s "empty.test" then Ok []
  else Err "no such host"%string.

#[export] Instance net : NetLib := {
  IP := addr;
  ParseIP := parse;
  isV4 := is_v4;
  IPString := text;
  LookupIP := lookup
}.

End Fixture.

(** ** Text conversions of Go's [strconv] and [fmt] *)

Module Strconv.

Definition digit_of (c : ascii) : option Z :=
  let n := nat_of_ascii c in
  if ((48 <=? n) && (n <=? 57))%nat then Some (Z.of_nat n - 48) else None.

Fixpoint parse_digits (acc : Z) (s : string) : option Z :=
  match s with
  | EmptyString => Some acc
  | String c rest =>
      match digit_of c with
      | Some d => parse_digits (10 * acc + d) rest
      | None => None
      end
  end.

(** The integer written by a decimal numeral: an optional sign and at least
    one digit; [None] for any other text. *)
Definition parse_decimal (s : string) : option Z :=
  let '(negative, body) :=
    match s with
    | String "-" rest => (true, rest)
    | String "+" rest => (false, rest)
    | _ => (false, s)
    end in
  match body with
  | EmptyString => None
  | _ =>
      match parse_digits 0 body with
      | Some v => Some (if negative then - v else v)
      | None => None
      end
  end.

(** [strconv.Atoi]: a syntax error for text that is not a decimal numeral, a
    range error for a numeral outside [int]; both are [None] here. *)
Definition Atoi (s : string) : option Z :=
  match parse_decimal s with
  | Some v =>
      if (- Int64.half_modulus <=? v) && (v <=? Int64.max_int) then Some v else None
  | None => None
  end.

(** [strconv.Itoa], also the [%d] verb of [fmt]. *)
Definition Itoa (n : Z) : string := NilZero.string_of_int (Z.to_int n).

End Strconv.

Module Fmt.

Definition digit_char (d : Z) : ascii := ascii_of_nat (48 + Z.to_nat d).

(** The last [prec] decimal digits of [n], zero padded. *)
Fixpoint frac_digits (prec : nat) (n : Z) : string :=
  match prec with
  | O => EmptyString
  | S p => (frac_digits p (n / 10) ++ String (digit_char (n mod 10)) EmptyString)%string
  end.

(** The integer nearest to [m * 2^e * 10^prec], ties to even. *)
Definition scaled_round (m : positive) (e : Z) (prec : nat) : Z :=
  let num := Z.pos m * 10 ^ Z.of_nat prec * 2 ^ Z.max e 0 in
  let den := 2 ^ Z.max (- e) 0 in
  let q := num / den in
  let r := num mod den in
  match 2 * r ?= den with
  | Lt => q
  | Gt => q + 1
  | Eq => if Z.even q then q else q + 1
  end.

(** [n / 10^prec] with [prec] digits after a decimal point ([prec > 0]). *)
Definition render_scaled (n : Z) (prec : nat) : string :=
  (Strconv.Itoa (n / 10 ^ Z.of_nat prec) ++ "." ++ frac_digits prec n)%string.

(** The verb [%.<prec>f] applied to a [float64]. *)
Definition fixed (prec : nat) (x : F64.t) : string :=
  match x with
  | S754_nan => "NaN"
  | S754_infinity false => "+Inf"
  | S754_infinity true => "-Inf"
  | S754_zero s =>
      ((if s then "-" else "") ++ render_scaled 0 prec)%string
  | S754_finite s m e =>
      ((if s then "-" else "") ++ render_scaled (scaled_round m e prec) prec)%string
  end.

(** The number of characters after the first ["."] of a text, when there is
    one and only digits follow it. *)
Fixpoint all_digits (s : string) : bool :=
  match s with
  | EmptyString => true
  | String c rest =>
      match Strconv.digit_of c with
      | Some _ => all_digits rest
      | None => false
      end
  end.

Fixpoint decimal_places (s : string) : option nat :=
  match s with
  | EmptyString => None
  | String c rest =>
      if Ascii.eqb c "." then
        if all_digits rest then Some (String.length rest) else None
      else decimal_places rest
  end.

Fixpoint no_point (s : string) : bool :=
  match s with
  | EmptyString => true
  | String c rest => negb (Ascii.eqb c ".") && no_point rest
  end.

End Fmt.

(** ** Options and their validation *)

(** [type Options struct] *)
Record Options : Type := mkOptions {
  UseIPv4 : bool;
  UseIPv6 : bool;
  Count : Z;
  Interval : Z;
  Timeout : Z;
  ColorOutput : bool;
  VerboseMode : bool;
  ShowVersion : bool;
  ShowHelp : bool;
  Port : Z
}.

(** The flag defaults that [setupFlags] registers. *)
Definition defaultOptions : Options :=
  mkOptions false false 0 1000 1000 false false false false 0.

(** The errors of [validateOptions], by message. *)
Inductive validation_error : Type :=
| BothFamilies        (* -4 and -6 both given *)
| NegativeInterval    (* the interval is negative *)
| NegativeTimeout     (* the timeout is negative *)
| MissingHost         (* no host argument *)
| PortFormat          (* the port is not a number *)
| PortRange.          (* the port is not between 1 and 65535 *)

(** [func validateOptions(opts *Options, args []string) (string, string, error)] *)
Definition validateOptions (opts : Options) (args : list string)
  : result (string * string) validation_error :=
  if UseIPv4 opts && UseIPv6 opts then Err BothFamilies
  else if Interval opts <? 0 then Err NegativeInterval
  else if Timeout opts <? 0 then Err NegativeTimeout
  else
    match args with
    | [] => Err MissingHost                         (* len(args) < 1 *)
    | host :: rest =>
        let port := "80"%string in
        let port :=
          match rest with
          | positional :: _ => positional            (* len(args) > 1 *)
          | [] => if 0 <? Port opts then Strconv.Itoa (Port opts) else port
          end in
        match Strconv.Atoi port with
        | None => Err PortFormat
        | Some portNum =>
            if (portNum <=? 0) || (65535 <? portNum) then Err PortRange
            else Ok (host, port)
        end
    end.

(** The options of a command line that gives [-p -5] and nothing else. *)
Definition opts_port_negative : Options :=
  mkOptions false false 0 1000 1000 false false false false (-5).

(** ** One probe attempt *)

(** The values of [ctx.Err()] other than [nil]. *)
Inductive ctx_error : Type := Canceled | DeadlineExceeded.

(** An open TCP connection: an identity and its local endpoint text. *)
Record Conn : Type := mkConn {
  conn_id : nat;
  LocalAddr : string
}.

(** What [d.DialContext] returned, and the microseconds measured around it. *)
Inductive dial_result : Type :=
| Connected (conn : Conn)
| DialFailed (err : string).

Record dial_outcome : Type := mkDial {
  dial_res : dial_result;
  dial_micros : Z
}.

(** The texts [pingOnce] prints, by format string, with the formatted verbs. *)
Inductive line : Type :=
| InterruptNotice                                   (* the attempt was aborted *)
| FailureLine (ip port seq err : string)            (* connection failed *)
| FailureDetail (elapsed address port : string)     (* verbose, after a failure *)
| SuccessLine (ip port seq elapsed : string)        (* response received *)
| SuccessDetail (localAddr ip port : string).       (* verbose, after a success *)

(** The escape codes of [colorText]: 32, 31 and 36, or none. *)
Inductive colour : Type := Plain | Green | Red | Cyan.

(** A text together with the colour it is wrapped in. *)
Definition styled : Type := (colour * line)%type.

(** [func colorText(text, colorCode string, useColor bool) string] *)
Definition colorText (text : line) (colorCode : colour) (useColor : bool) : styled :=
  if negb useColor then (Plain, text) else (colorCode, text).

Definition successText (text : line) (useColor : bool) : styled :=
  colorText text Green useColor.
Definition errorText (text : line) (useColor : bool) : styled :=
  colorText text Red useColor.
Definition infoText (text : line) (useColor : bool) : styled :=
  colorText text Cyan useColor.

(** The observable effects of an attempt, in the order they happen.
    [DialCancel] is the deferred [dialCancel()]. *)
Inductive effect : Type :=
| Printf (text : styled)
| Close (conn : Conn)
| DialCancel.

(** [func pingOnce(ctx, address, port, timeout, stats, seq, ip, opts)].
    The dial itself is the environment's: [d] is what [DialContext] returned
    within the timeout and [ctx_err] is the value of [ctx.Err()] read on
    line 218, after the dial has returned. *)
Definition pingOnce (ctx_err : option ctx_error) (d : dial_outcome)
    (address port : string) (stats : Statistics) (seq : Z) (ip : string)
    (opts : Options) : Statistics * list effect :=
  let elapsed := elapsed_of_micros (dial_micros d) in
  match ctx_err with
  | Some Canceled =>
      let msg := InterruptNotice in
      (stats, [Printf (infoText msg (ColorOutput opts)); DialCancel])
  | _ =>
      let success := match dial_res d with Connected _ => true | DialFailed _ => false end in
      let stats := update stats elapsed success in
      match dial_res d with
      | DialFailed err =>
          let msg := FailureLine ip port (Strconv.Itoa seq) err in
          (stats,
           [Printf (errorText msg (ColorOutput opts))]
           ++ (if VerboseMode opts
               then [Printf (Plain, FailureDetail (Fmt.fixed 2 elapsed) address port)]
               else [])
           ++ [DialCancel])
      | Connected conn =>
          (* defer conn.Close() runs when the function returns *)
          let msg := SuccessLine ip port (Strconv.Itoa seq) (Fmt.fixed 2 elapsed) in
          (stats,
           [Printf (successText msg (ColorOutput opts))]
           ++ (if VerboseMode opts
               then [Printf (Plain, SuccessDetail (LocalAddr conn) ip port)]
               else [])
           ++ [Close conn; DialCancel])
      end
  end.

(** Whether an effect is a result line (success or failure) of an attempt. *)
Definition is_result_line (e : effect) : bool :=
  match e with
  | Printf (_, FailureLine _ _ _ _) | Printf (_, SuccessLine _ _ _ _) => true
  | _ => false
  end.

Definition closes (conn : Conn) (e : effect) : bool :=
  match e with
  | Close c => (conn_id c =? conn_id conn)%nat
  | _ => false
  end.

(** A connection that the dial opened on local port 51000. *)
Definition sample_conn : Conn := mkConn 1 "127.0.0.1:51000".

Definition sample_connected : dial_outcome := mkDial (Connected sample_conn) 2500.

(** ** The final summary *)

(** The texts [printTCPingStatistics] prints, by format string. *)
Inductive summary_line : Type :=
| StatsHeader                                    (* the title of the block *)
| StatsTotals (sent responded lost loss : string) (* sent, received, lost (loss %) *)
| StatsRTT (min max avg : string).               (* round-trip min, max, avg *)

(** [float64(sent-responded) / float64(sent) * 100] *)
Definition lossRate (sent responded : Z) : F64.t :=
  F64.mul (F64.div (F64.of_int (Int64.sub sent responded)) (F64.of_int sent))
          (F64.of_int 100).

(** [func printTCPingStatistics(stats *Statistics)] *)
Definition printTCPingStatistics (stats : Statistics) : list summary_line :=
  let snap := getStats stats in
  let sent := snap_sent snap in
  let responded := snap_responded snap in
  [StatsHeader]
  ++ (if 0 <? sent then
        [StatsTotals (Strconv.Itoa sent) (Strconv.Itoa responded)
                     (Strconv.Itoa (Int64.sub sent responded))
                     (Fmt.fixed 1 (lossRate sent responded))]
        ++ (if 0 <? responded then
              [StatsRTT (Fmt.fixed 2 (snap_min snap)) (Fmt.fixed 2 (snap_max snap))
                        (Fmt.fixed 2 (snap_avg snap))]
            else [])
      else []).

Definition is_totals (l : summary_line) : bool :=
  match l with StatsTotals _ _ _ _ => true | _ => false end.

Definition is_rtt (l : summary_line) : bool :=
  match l with StatsRTT _ _ _ => true | _ => false end.

(** A number that is neither NaN nor an infinity. *)
Definition is_finite (x : F64.t) : bool :=
  match x with
  | S754_zero _ | S754_finite _ _ _ => true
  | _ => false
  end.

(** ** The probe loop *)

(** What a run of the loop meets.  [dial i] is the outcome of the dial of
    attempt [i].  The loop looks at the parent context three times per
    iteration [k]: before the attempt (point [3k]), inside [pingOnce] after
    the dial (point [3k+1]) and in the wait (point [3k+2]); [cancel_at] is
    the first point at which it finds the context cancelled, if any.
    [timer_first k] tells whether the wait of iteration [k] takes the timer
    case when the cancellation case is ready too. *)
Record world : Type := mkWorld {
  dial : Z -> dial_outcome;
  cancel_at : option nat;
  timer_first : nat -> bool
}.

(** A cancelled context stays cancelled. *)
Definition ctx_done (w : world) (t : nat) : bool :=
  match cancel_at w with
  | Some c => (c <=? t)%nat
  | None => false
  end.

(** [ctx.Err()] of the context made by [context.WithCancel]. *)
Definition ctx_err_at (w : world) (t : nat) : option ctx_error :=
  if ctx_done w t then Some Canceled else None.

(** What the goroutine has done so far. *)
Record loop_state : Type := mkLoopState {
  ls_stats : Statistics;
  ls_effects : list effect;
  ls_attempts : list Z          (* the [seq] of each call of [pingOnce] *)
}.

Definition loop_start : loop_state := mkLoopState newStatistics [] [].

(** The ways out of the loop. *)
Inductive loop_exit : Type :=
| Exhausted          (* the loop condition is false *)
| LastDone           (* [break] after the last attempt, line 427 *)
| CancelledBefore    (* [return] of the check before an attempt, line 418 *)
| CancelledWaiting.  (* [return] of the wait, line 433 *)

Inductive loop_result : Type :=
| Exited (how : loop_exit) (st : loop_state)
| StillRunning (st : loop_state).     (* more iterations than [fuel] *)

Section ProbeLoop.

Variables (w : world) (opts : Options) (address port ip : string).

(** [for i := 0; opts.Count == 0 || i < opts.Count; i++ { ... }] of the
    goroutine in [main], from iteration [k] with loop variable [i]; [fuel]
    bounds the number of iterations run. *)
Fixpoint probe_loop (fuel : nat) (k : nat) (i : Z) (st : loop_state) : loop_result :=
  match fuel with
  | O => StillRunning st
  | S fuel' =>
      if negb ((Count opts =? 0) || (i <? Count opts)) then Exited Exhausted st
      else if ctx_done w (3 * k) then Exited CancelledBefore st
      else
        let '(stats', effects) :=
          pingOnce (ctx_err_at w (3 * k + 1)) (dial w i)
                   address port (ls_stats st) i ip opts in
        let st' := mkLoopState stats' (ls_effects st ++ effects)
                               (ls_attempts st ++ [i]) in
        if negb (Count opts =? 0) && (i =? Int64.sub (Count opts) 1)
        then Exited LastDone st'
        else if ctx_done w (3 * k + 2) && negb (timer_first w k)
        then Exited CancelledWaiting st'
        else probe_loop fuel' (S k) (Int64.incr i) st'
  end.

End ProbeLoop.

(** The sequence numbers [0, 1, ..., n-1]. *)
Definition seq_numbers (start : Z) (n : nat) : list Z :=
  map (fun j => start + Z.of_nat j) (seq 0 n).

Definition is_cancel_exit (how : loop_exit) : bool :=
  match how with
  | CancelledBefore | CancelledWaiting => true
  | Exhausted | LastDone => false
  end.

(** A target that refuses every connection after 300 microseconds, and no
    cancellation. *)
Definition refusing_world : world :=
  mkWorld (fun _ => mkDial (DialFailed "connection refused") 300) None (fun _ => true).

Definition opts_count (n : Z) : Options :=
  mkOptions false false n 0 1000 false false false false 0.

(** A run whose first attempt connects and then finds the context cancelled. *)
Definition interrupted_world : world :=
  mkWorld (fun _ => sample_connected) (Some 1%nat) (fun _ => true).

(** ** The shutdown race of [main] *)

Module Shutdown.

(** Where the probe goroutine (lines 411-437) stands. *)
Inductive worker_pc : Type :=
| AtLoopHead (i : Z)                     (* 414-420: loop condition, check before the attempt *)
| Dialing (i : Z)                        (* 214: inside [DialContext] *)
| AfterDial (i : Z) (d : dial_outcome)   (* 218: about to read [ctx.Err()] *)
| Counting (i : Z) (d : dial_outcome)    (* 225: about to call [stats.update] *)
| Reporting (i : Z) (d : dial_outcome)   (* 227-245: printing, then the deferred calls *)
| AfterAttempt (i : Z)                   (* 426: last attempt? *)
| Waiting (i : Z)                        (* 431: the wait *)
| WorkerExited.                          (* [wg.Done()] has run *)

(** Where the main goroutine (lines 446-453) stands. *)
Inductive main_pc : Type :=
| AtSelect                               (* 446: waiting for [interrupt] or [done] *)
| Interrupted                            (* 448: took [<-interrupt], about to [cancel()] *)
| AtStatistics                           (* 453: about to call [printTCPingStatistics] *)
| Printed (snapshot : Snapshot).         (* the summary is out *)

Record system : Type := mkSystem {
  worker : worker_pc;
  main_thread : main_pc;
  cancelled : bool;            (* [ctx] is cancelled *)
  signal_pending : bool;       (* a signal sits in the [interrupt] channel *)
  stats : Statistics
}.

Definition initial : system :=
  mkSystem (AtLoopHead 0) AtSelect false false newStatistics.

(** One scheduling decision. *)
Inductive action : Type :=
| Signal                          (* the OS delivers an interrupt *)
| MainTakesInterrupt              (* the select of [main] takes [<-interrupt] *)
| MainTakesDone                   (* the select of [main] takes [<-done] *)
| MainProceeds                    (* [main] runs its next statement *)
| WorkerProceeds                  (* the goroutine runs its next statement *)
| DialReturns (d : dial_outcome)  (* the pending dial returns *)
| TimerFires                      (* the wait takes the timer case *)
| WaitCancelled.                  (* the wait takes [<-ctx.Done()] *)

Definition set_worker (s : system) (pc : worker_pc) : system :=
  mkSystem pc (main_thread s) (cancelled s) (signal_pending s) (stats s).

Definition set_main (s : system) (pc : main_pc) : system :=
  mkSystem (worker s) pc (cancelled s) (signal_pending s) (stats s).

Section Steps.

Variable opts : Options.

(** The effect of an action, [None] when it is not enabled. *)
Definition exec (a : action) (s : system) : option system :=
  match a, main_thread s, worker s with
  | Signal, _, _ =>
      Some (mkSystem (worker s) (main_thread s) (cancelled s) true (stats s))
  | MainTakesInterrupt, AtSelect, _ =>
      if signal_pending s
      then Some (mkSystem (worker s) Interrupted (cancelled s) false (stats s))
      else None
  | MainTakesDone, AtSelect, WorkerExited =>
      (* [done] is closed only after [wg.Wait()] has returned *)
      Some (set_main s AtStatistics)
  | MainProceeds, Interrupted, _ =>
      Some (mkSystem (worker s) AtStatistics true (signal_pending s) (stats s))
  | MainProceeds, AtStatistics, _ =>
      Some (set_main s (Printed (getStats (stats s))))
  | WorkerProceeds, _, AtLoopHead i =>
      if negb ((Count opts =? 0) || (i <? Count opts)) then Some (set_worker s WorkerExited)
      else if cancelled s then Some (set_worker s WorkerExited)
      else Some (set_worker s (Dialing i))
  | DialReturns d, _, Dialing i =>
      Some (set_worker s (AfterDial i d))
  | WorkerProceeds, _, AfterDial i d =>
      if cancelled s then Some (set_worker s (AfterAttempt i))
      else Some (set_worker s (Counting i d))
  | WorkerProceeds, _, Counting i d =>
      let success := match dial_res d with Connected _ => true | DialFailed _ => false end in
      Some (mkSystem (Reporting i d) (main_thread s) (cancelled s) (signal_pending s)
                     (update (stats s) (elapsed_of_micros (dial_micros d)) success))
  | WorkerProceeds, _, Reporting i d =>
      Some (set_worker s (AfterAttempt i))
  | WorkerProceeds, _, AfterAttempt i =>
      if negb (Count opts =? 0) && (i =? Int64.sub (Count opts) 1)
      then Some (set_worker s WorkerExited)
      else Some (set_worker s (Waiting i))
  | TimerFires, _, Waiting i =>
      Some (set_worker s (AtLoopHead (Int64.incr i)))
  | WaitCancelled, _, Waiting i =>
      if cancelled s then Some (set_worker s WorkerExited) else None
  | _, _, _ => None
  end.

(** A schedule, run from a state. *)
Fixpoint run_schedule (schedule : list action) (s : system) : option system :=
  match schedule with
  | [] => Some s
  | a :: rest =>
      match exec a s with
      | Some s' => run_schedule rest s'
      | None => None
      end
  end.

End Steps.

(** The first attempt connects and passes the cancellation check of line
    218; then the interrupt arrives and [main] takes it. *)
Definition until_interrupt : list action :=
  [WorkerProceeds; DialReturns sample_connected; WorkerProceeds;
   Signal; MainTakesInterrupt].

(** [main] cancels and prints the summary. *)
Definition cancel_and_print : list action := [MainProceeds; MainProceeds].

(** The goroutine goes on with the statement it had reached. *)
Definition late_update : list action := [WorkerProceeds].

(** The actions of the probe goroutine. *)
Definition is_worker_action (a : action) : bool :=
  match a with
  | WorkerProceeds | DialReturns _ | TimerFires | WaitCancelled => true
  | Signal | MainTakesInterrupt | MainTakesDone | MainProceeds => false
  end.

(** How many statements the goroutine can still run once the context is
    cancelled, from each place. *)
Definition remaining (pc : worker_pc) : nat :=
  match pc with
  | WorkerExited => 0
  | AtLoopHead _ => 1
  | Waiting _ => 2
  | AfterAttempt _ => 3
  | AfterDial _ _ | Reporting _ _ => 4
  | Dialing _ | Counting _ _ => 5
  end.

Definition before_update (pc : worker_pc) : bool :=
  match pc with
  | Counting _ _ => true
  | _ => false
  end.

(** The run to its natural end with count 1 and a refused connection. *)
Definition one_failed_attempt : list action :=
  [WorkerProceeds; DialReturns (mkDial (DialFailed "connection refused") 300);
   WorkerProceeds; WorkerProceeds; WorkerProceeds; WorkerProceeds].

End Shutdown.

(** The calls of a history that failed. *)
Definition failures (calls : list call) : list call :=
  filter (fun c => negb (snd c)) calls.

(** The options of a command line that gives [-p 8080] and [-n -3]. *)
Definition opts_port_8080 : Options :=
  mkOptions false false (-3) 1000 1000 false false false false 8080.

(** ** The target that [main] resolves and displays *)

Section MainTarget.

Context {net : NetLib}.

(** Lines 376-384 of [main]: the family flags handed to [resolveAddress]. *)
Definition main_resolve (opts : Options) (host : string)
  : result string resolve_error :=
  let '(hostIsIPv4, hostIsIPv6) := getIPType host in
  let useIPv4 := UseIPv4 opts || (negb (UseIPv6 opts) && hostIsIPv4) in
  let useIPv6 := UseIPv6 opts || hostIsIPv6 in
  resolveAddress host useIPv4 useIPv6.

End MainTarget.

(** [strings.HasPrefix] and [strings.HasSuffix]. *)
Definition HasPrefix (s prefix : string) : bool := String.prefix prefix s.

Definition HasSuffix (s suffix : string) : bool :=
  (String.length suffix <=? String.length s)%nat &&
  String.eqb (substring (String.length s - String.length suffix)
                        (String.length suffix) s) suffix.

(** Lines 390-395 of [main]: the family label and the address shown in the
    banner and in every result line. *)
Definition displayAddress (address : string) : string * string :=
  let ipType := "IPv4"%string in
  let ipAddress := address in
  if HasPrefix address "[" && HasSuffix address "]" then
    ("IPv6"%string, substring 1 (String.length address - 1 - 1) address)
  else (ipType, ipAddress).

(** The options of a command line that gives [-4], and of one that gives [-6]. *)
Definition opts_force_v4 : Options :=
  mkOptions true false 0 1000 1000 false false false false 0.

Definition opts_force_v6 : Options :=
  mkOptions false true 0 1000 1000 false false false false 0.

(** ** Reading the effects of an attempt *)

(** The texts printed, in order. *)
Definition printed (effects : list effect) : list styled :=
  flat_map (fun e => match e with Printf text => [text] | _ => [] end) effects.

Definition is_print (e : effect) : bool :=
  match e with Printf _ => true | _ => false end.

Definition is_dial_cancel (e : effect) : bool :=
  match e with DialCancel => true | _ => false end.

Definition is_detail_line (e : effect) : bool :=
  match e with
  | Printf (_, FailureDetail _ _ _) | Printf (_, SuccessDetail _ _ _) => true
  | _ => false
  end.

(** The colour scheme of the output: green for a response, red for a
    failure, cyan for the interruption notice, none for the verbose lines. *)
Definition line_colour (l : line) : colour :=
  match l with
  | InterruptNotice => Cyan
  | FailureLine _ _ _ _ => Red
  | SuccessLine _ _ _ _ => Green
  | FailureDetail _ _ _ | SuccessDetail _ _ _ => Plain
  end.

(** Options with colour and verbose output switched on. *)
Definition opts_color_verbose : Options :=
  mkOptions false false 0 1000 1000 true true false false 0.

(** The state a run of the loop has reached, exited or not. *)
Definition result_state (r : loop_result) : loop_state :=
  match r with
  | Exited _ st => st
  | StillRunning st => st
  end.

(** A run whose target answers every dial, cancelled while the third
    attempt is in flight. *)
Definition answering_world : world :=
  mkWorld (fun _ => sample_connected) (Some 7%nat) (fun _ => false).

(** ** Reading the effects of a run of the loop *)

(** The sequence number printed on each result line, in order. *)
Definition printed_seqs (effects : list effect) : list string :=
  flat_map (fun e =>
              match e with
              | Printf (_, FailureLine _ _ seq _) => [seq]
              | Printf (_, SuccessLine _ _ seq _) => [seq]
              | _ => []
              end) effects.

Definition is_notice (e : effect) : bool :=
  match e with
  | Printf (_, InterruptNotice) => true
  | _ => false
  end.

(** The interruption notices printed. *)
Definition count_notices (effects : list effect) : nat :=
  length (filter is_notice effects).

(** The calls of [pingOnce] made: each one ends with its [dialCancel]. *)
Definition count_dial_cancels (effects : list effect) : nat :=
  length (filter is_dial_cancel effects).

(** The values the loop variable takes: [i], [i++], ... *)
Fixpoint loop_seqs (n : nat) (i : Z) : list Z :=
  match n with
  | O => []
  | S n' => i :: loop_seqs n' (Int64.incr i)
  end.

Section AttemptsInOrder.

Variables (w : world) (opts : Options) (address port ip : string).

(** What a call of [pingOnce] with sequence number [i] that does not find the
    context cancelled adds to a run. *)
Definition attempt_uncancelled (st : loop_state) (i : Z) : loop_state :=
  let '(stats', effects) :=
    pingOnce None (dial w i) address port (ls_stats st) i ip opts in
  mkLoopState stats' (ls_effects st ++ effects) (ls_attempts st ++ [i]).

(** Such calls made one after the other for the given sequence numbers. *)
Definition attempts_in_order (seqs : list Z) (st : loop_state) : loop_state :=
  fold_left attempt_uncancelled seqs st.

End AttemptsInOrder.

(** ** The fallback of the resolver *)

Section ResolverFallback.

Context {net : NetLib}.

(** Lines 190-195 of [resolveAddress]. *)
Definition source_fallback (ipList : list IP) : result string resolve_error :=
  match nth_error ipList 0 with
  | Some ip =>
      if negb (isV4 ip) then Ok (bracket (IPString ip))
      else Ok (IPString ip)
  | None => Err IndexOutOfRange
  end.

(** [resolveAddress] with lines 190-195 replaced by [fallback]. *)
Definition resolveAddress_with
    (fallback : list IP -> result string resolve_error)
    (address : string) (useIPv4 useIPv6 : bool) : result string resolve_error :=
  match ParseIP address with
  | Some ip =>
      let v4 := isV4 ip in
      if useIPv4 && negb v4 then Err (NotIPv4 address)
      else if useIPv6 && v4 then Err (NotIPv6 address)
      else if negb v4 then Ok (bracket (IPString ip))
      else Ok (IPString ip)
  | None =>
      match LookupIP address with
      | Err err => Err (LookupFailed address err)
      | Ok ipList =>
          if (length ipList =? 0)%nat then Err (NoAddress address)
          else if useIPv4 then
            match first_v4 ipList with
            | Some ip => Ok (IPString ip)
            | None => Err (NoIPv4Address address)
            end
          else if useIPv6 then
            match first_v6 ipList with
            | Some ip => Ok (bracket (IPString ip))
            | None => Err (NoIPv6Address address)
            end
          else
            match first_v4 ipList with
            | Some ip => Ok (IPString ip)
            | None =>
                match first_v6 ipList with
                | Some ip => Ok (bracket (IPString ip))
                | None => fallback ipList
                end
            end
      end
  end.

(** Whether a call gets to line 190: the host is not a literal, the lookup
    answers with a non-empty list, no family is requested and both loops of
    the no-preference case run to their end. *)
Definition reaches_fallback (address : string) (useIPv4 useIPv6 : bool) : bool :=
  match ParseIP address with
  | Some _ => false
  | None =>
      match LookupIP address with
      | Err _ => false
      | Ok ipList =>
          negb (length ipList =? 0)%nat && negb useIPv4 && negb useIPv6
          && match first_v4 ipList with
             | Some _ => false
             | None =>
                 match first_v6 ipList with
                 | Some _ => false
                 | None => true
                 end
             end
      end
  end.

End ResolverFallback.

(* ================================================================== *)
(** * Properties *)

Module Int64Facts.
Import Int64.

Lemma wrap_small z : in_range z -> wrap z = z.
Proof.
  unfold in_range, wrap, max_int, half_modulus, modulus. intros H.
  rewrite Z.mod_small by lia. lia.
Qed.

Lemma incr_small z : 0 <= z < max_int -> incr z = z + 1.
Proof.
  intros H. unfold incr, add. apply wrap_small.
  unfold in_range, max_int, half_modulus in *. lia.
Qed.

End Int64Facts.

Module F64Facts.
Import F64.

(** *** The order on numbers that are not NaN *)

Lemma compare_cont_Eq (p q : positive) : Pos.compare_cont Eq p q = (p ?= q)%positive.
Proof. reflexivity. Qed.

Ltac order_cases :=
  repeat match goal with
  | s : bool |- _ => destruct s
  end;
  cbn in *; rewrite ?compare_cont_Eq in *;
  repeat match goal with
  | |- context [(?a ?= ?b)%positive] => destruct (Pos.compare_spec a b)
  | H : context [(?a ?= ?b)%positive] |- _ => destruct (Pos.compare_spec a b)
  | |- context [?a ?= ?b] => destruct (Z.compare_spec a b)
  | H : context [?a ?= ?b] |- _ => destruct (Z.compare_spec a b)
  end;
  cbn in *; try reflexivity; try discriminate; try lia.

Lemma leb_refl x : is_nan x = false -> leb x x = true.
Proof.
  unfold leb, SFleb. destruct x; intros H; try discriminate H; order_cases.
Qed.

Lemma ltb_leb x y : ltb x y = true -> leb x y = true.
Proof.
  unfold ltb, leb, SFltb, SFleb.
  destruct (SFcompare x y) as [[ | | ]|]; intros H; try discriminate H; reflexivity.
Qed.

Lemma ltb_false_leb x y :
  is_nan x = false -> is_nan y = false -> ltb x y = false -> leb y x = true.
Proof.
  unfold ltb, leb, SFltb, SFleb.
  destruct x, y; intros Hx Hy H; try discriminate Hx; try discriminate Hy;
    order_cases.
Qed.

Lemma leb_trans x y z : leb x y = true -> leb y z = true -> leb x z = true.
Proof.
  unfold leb, SFleb.
  destruct x, y, z; intros H1 H2; cbn in H1, H2; try discriminate;
    order_cases.
Qed.

Lemma leb_not_nan x y : leb x y = true -> is_nan x = false /\ is_nan y = false.
Proof.
  unfold leb, SFleb. destruct x, y; cbn; intros H; try discriminate H; auto.
Qed.

(** *** Rounding never invents a NaN *)

Lemma shr_1_nonneg mrs : 0 <= shr_m mrs -> 0 <= shr_m (shr_1 mrs).
Proof.
  destruct mrs as [m r s]. destruct m as [|[p|p|]|[p|p|]]; cbn; lia.
Qed.

Lemma iter_shr_1_nonneg p :
  forall mrs, 0 <= shr_m mrs -> 0 <= shr_m (iter_pos shr_1 p mrs).
Proof.
  induction p as [p IH|p IH|]; intros mrs H; cbn.
  - apply IH, IH, shr_1_nonneg, H.
  - apply IH, IH, H.
  - apply shr_1_nonneg, H.
Qed.

Lemma shr_fexp_nonneg m e l :
  0 <= m -> 0 <= shr_m (fst (shr_fexp prec emax m e l)).
Proof.
  intros H. unfold shr_fexp, shr.
  assert (H0 : 0 <= shr_m (shr_record_of_loc m l))
    by (destruct l as [|[ | | ]]; exact H).
  destruct (fexp prec emax (Zdigits2 m + e) - e); cbn [fst];
    auto using iter_shr_1_nonneg.
Qed.

Lemma round_nearest_even_nonneg m l : 0 <= m -> 0 <= round_nearest_even m l.
Proof.
  intros H. destruct l as [|[ | | ]]; cbn; try lia.
  destruct (Z.even m); lia.
Qed.

Lemma binary_round_aux_not_nan sx mx ex lx :
  0 <= mx -> is_nan (binary_round_aux prec emax sx mx ex lx) = false.
Proof.
  intros H. unfold binary_round_aux.
  pose proof (shr_fexp_nonneg mx ex lx H) as H1.
  destruct (shr_fexp prec emax mx ex lx) as [mrs' e']. cbn [fst] in H1.
  pose proof (shr_fexp_nonneg _ e' loc_Exact
                (round_nearest_even_nonneg _ (loc_of_shr_record mrs') H1)) as H2.
  destruct (shr_fexp prec emax _ e' loc_Exact) as [mrs'' e'']. cbn [fst] in H2.
  destruct (shr_m mrs'') as [|m|m]; [reflexivity| |lia].
  destruct (e'' <=? emax - prec); reflexivity.
Qed.

Lemma of_int_not_nan n : is_nan (of_int n) = false.
Proof.
  unfold of_int, binary_normalize, binary_round.
  destruct n as [|m|m]; [reflexivity| |];
    destruct (shl_align _ _ _) as [mz ez];
    apply binary_round_aux_not_nan; lia.
Qed.

Lemma div_by_finite_not_nan x s m e :
  is_nan x = false -> is_nan (div x (S754_finite s m e)) = false.
Proof.
  intros Hx. destruct x as [sx|sx| |sx mx ex]; try reflexivity; [discriminate|].
  unfold div, SFdiv, SFdiv_core_binary.
  set (m' := match _ - _ - _ with Z0 => Z.pos mx | Z.pos _ => _ | Z.neg _ => 0 end).
  assert (Hm' : 0 <= m').
  { subst m'. destruct (_ - _ - _); try lia. apply Z.shiftl_nonneg. lia. }
  pose proof (Z.div_pos m' (Z.pos m) Hm' eq_refl) as Hq.
  unfold Z.div in Hq. destruct (Z.div_eucl m' (Z.pos m)) as [q r].
  apply binary_round_aux_not_nan. exact Hq.
Qed.

End F64Facts.

(** ** The statistics aggregator *)

Section StatisticsFacts.

Import F64Facts.

Lemma run_snoc calls c : run (calls ++ [c]) = apply_call (run calls) c.
Proof. unfold run, run_from. rewrite fold_left_app. reflexivity. Qed.

Lemma successes_snoc calls c :
  successes (calls ++ [c]) = successes calls ++ (if snd c then [fst c] else []).
Proof.
  unfold successes. rewrite filter_app, map_app. cbn.
  destruct (snd c); reflexivity.
Qed.

Lemma sum_elapsed_snoc es e : sum_elapsed (es ++ [e]) = F64.add (sum_elapsed es) e.
Proof. unfold sum_elapsed. rewrite fold_left_app. reflexivity. Qed.

Lemma successes_length_le calls : (length (successes calls) <= length calls)%nat.
Proof.
  unfold successes. rewrite length_map. apply filter_length_le.
Qed.

Lemma within_int64_snoc calls c :
  within_int64 (calls ++ [c]) ->
  within_int64 calls /\ Z.of_nat (length calls) < Int64.max_int.
Proof.
  unfold within_int64. rewrite length_app. cbn. lia.
Qed.

Lemma elapsed_are_numbers_snoc calls c :
  elapsed_are_numbers (calls ++ [c]) ->
  elapsed_are_numbers calls /\ (snd c = true -> F64.is_nan (fst c) = false).
Proof.
  unfold elapsed_are_numbers. rewrite successes_snoc. intros H.
  apply Forall_app in H. destruct H as [H1 H2]. split; [exact H1|].
  intros Hc. rewrite Hc in H2. inversion H2; assumption.
Qed.

Lemma update_failure s elapsed :
  update s elapsed false =
  mkStatistics (Int64.incr (sentCount s)) (respondedCount s)
               (minTime s) (maxTime s) (totalTime s).
Proof. reflexivity. Qed.

Lemma update_first_success s elapsed :
  respondedCount s = 0 ->
  update s elapsed true =
  mkStatistics (Int64.incr (sentCount s)) 1 elapsed elapsed
               (F64.add (totalTime s) elapsed).
Proof. intros H. unfold update. cbn. rewrite H. reflexivity. Qed.

Lemma update_later_success s elapsed :
  1 <= respondedCount s < Int64.max_int ->
  update s elapsed true =
  mkStatistics (Int64.incr (sentCount s)) (respondedCount s + 1)
    (if F64.ltb elapsed (minTime s) then elapsed else minTime s)
    (if F64.gtb elapsed (maxTime s) then elapsed else maxTime s)
    (F64.add (totalTime s) elapsed).
Proof.
  intros H. unfold update. cbn.
  rewrite Int64Facts.incr_small by lia.
  destruct (Z.eqb_spec (respondedCount s + 1) 1) as [E|_]; [lia|].
  destruct (F64.ltb elapsed (minTime s)); cbn;
    destruct (F64.gtb elapsed (maxTime s)); reflexivity.
Qed.

Lemma summarises_step calls s c :
  Z.of_nat (length calls) < Int64.max_int ->
  (snd c = true -> F64.is_nan (fst c) = false) ->
  summarises calls s ->
  summarises (calls ++ [c]) (apply_call s c).
Proof.
  intros Hlen Hnum (Hsent & Hresp & Htot & Hrange).
  pose proof (successes_length_le calls) as Hk.
  destruct c as [e [|]]; unfold apply_call; cbn [fst snd] in *.
  - (* a successful attempt *)
    specialize (Hnum eq_refl).
    destruct (successes calls) as [|e0 es] eqn:Hs.
    + rewrite update_first_success by (rewrite Hresp; reflexivity).
      unfold summarises. rewrite successes_snoc, Hs, length_app. cbn.
      rewrite Int64Facts.incr_small by lia.
      repeat split; try lia.
      * rewrite Htot. reflexivity.
      * destruct H as [<-|[]]. now apply leb_refl.
      * destruct H as [<-|[]]. now apply leb_refl.
    + cbn [length] in Hresp, Hk.
      rewrite update_later_success by lia.
      unfold summarises. rewrite successes_snoc, Hs, !length_app. cbn [snd fst length].
      rewrite Int64Facts.incr_small by lia.
      destruct (Hrange e0 (or_introl eq_refl)) as [Hmin0 Hmax0].
      apply leb_not_nan in Hmin0, Hmax0.
      cbn [sentCount respondedCount totalTime minTime maxTime].
      split; [lia|]. split; [lia|]. split.
      * rewrite Htot. now rewrite sum_elapsed_snoc.
      * intros x Hx. apply in_app_or in Hx. unfold F64.gtb.
        destruct Hx as [Hx|[<-|[]]].
        -- destruct (Hrange x Hx) as [Hlo Hhi]. split.
           ++ destruct (F64.ltb e (minTime s)) eqn:E; [|exact Hlo].
              eapply leb_trans; [apply ltb_leb; exact E | exact Hlo].
           ++ destruct (SFltb (maxTime s) e) eqn:E; [|exact Hhi].
              eapply leb_trans; [exact Hhi | apply ltb_leb; exact E].
        -- split.
           ++ destruct (F64.ltb e (minTime s)) eqn:E; [now apply leb_refl|].
              apply ltb_false_leb; tauto.
           ++ destruct (SFltb (maxTime s) e) eqn:E; [now apply leb_refl|].
              apply ltb_false_leb; tauto.
  - (* a failed attempt *)
    rewrite update_failure. unfold summarises. cbn.
    rewrite successes_snoc, length_app, app_nil_r. cbn.
    rewrite Int64Facts.incr_small by lia.
    repeat split; try lia; try assumption; apply Hrange; assumption.
Qed.

Lemma run_summarises calls :
  within_int64 calls -> elapsed_are_numbers calls -> summarises calls (run calls).
Proof.
  induction calls as [|c calls IH] using rev_ind; intros Hlen Hnum.
  - unfold summarises. cbn. repeat split; contradiction.
  - apply within_int64_snoc in Hlen. apply elapsed_are_numbers_snoc in Hnum.
    rewrite run_snoc. apply summarises_step; tauto.
Qed.

(** Every elapsed time that [pingOnce] can compute is a number. *)
Lemma elapsed_of_micros_not_nan us : F64.is_nan (elapsed_of_micros us) = false.
Proof.
  unfold elapsed_of_micros.
  change (F64.of_int 1000) with (S754_finite false 8796093022208000 (-43)).
  apply div_by_finite_not_nan, of_int_not_nan.
Qed.

Lemma attempts_are_numbers (attempts : list (Z * bool)) :
  elapsed_are_numbers
    (map (fun a => (elapsed_of_micros (fst a), snd a)) attempts).
Proof.
  unfold elapsed_are_numbers, successes.
  induction attempts as [|[us ok] rest IH]; cbn; [constructor|].
  destruct ok; cbn; [constructor|]; auto using elapsed_of_micros_not_nan.
Qed.

Lemma run_without_success calls :
  successes calls = [] -> respondedCount (run calls) = 0.
Proof.
  induction calls as [|c calls IH] using rev_ind; intros H; [reflexivity|].
  rewrite successes_snoc in H. apply app_eq_nil in H. destruct H as [H1 H2].
  rewrite run_snoc. destruct c as [e [|]]; cbn in H2; [discriminate|].
  unfold apply_call. cbn [fst snd]. rewrite update_failure. cbn. auto.
Qed.

Lemma update_preserves_inv s elapsed success :
  0 <= sentCount s < Int64.max_int ->
  (success = true -> F64.is_nan elapsed = false) ->
  stats_inv s ->
  sentCount (update s elapsed success) = sentCount s + 1 /\
  respondedCount s <= respondedCount (update s elapsed success) /\
  stats_inv (update s elapsed success).
Proof.
  intros Hsent Hnum [Hcnt Hmm]. destruct success.
  - specialize (Hnum eq_refl).
    destruct (Z.eq_dec (respondedCount s) 0) as [H0|H0].
    + rewrite update_first_success by assumption. cbn.
      rewrite Int64Facts.incr_small by lia. unfold stats_inv. cbn.
      repeat split; try lia. intros _. now apply leb_refl.
    + rewrite update_later_success by lia. cbn.
      rewrite Int64Facts.incr_small by lia. unfold stats_inv. cbn.
      repeat split; try lia. intros _.
      assert (Hle : F64.leb (minTime s) (maxTime s) = true) by (apply Hmm; lia).
      unfold F64.gtb.
      destruct (F64.ltb elapsed (minTime s)) eqn:E1;
        destruct (SFltb (maxTime s) elapsed) eqn:E2.
      * now apply leb_refl.
      * eapply leb_trans; [apply ltb_leb; exact E1 | exact Hle].
      * eapply leb_trans; [exact Hle | apply ltb_leb; exact E2].
      * exact Hle.
  - rewrite update_failure. cbn. rewrite Int64Facts.incr_small by lia.
    unfold stats_inv. cbn. repeat split; try lia. exact Hmm.
Qed.

Lemma reachable_sent n s :
  reachable n s -> Z.of_nat n <= Int64.max_int ->
  sentCount s = Z.of_nat n /\ stats_inv s.
Proof.
  induction 1 as [|n s elapsed success Hr IH Hnum]; intros Hn.
  - split; [reflexivity|]. unfold stats_inv. cbn. split; [lia|]. intros H. lia.
  - destruct IH as [Hs Hinv]; [lia|].
    destruct (update_preserves_inv s elapsed success) as (H1 & _ & H3);
      try assumption; [lia|].
    split; [lia | exact H3].
Qed.

(** C1 (Statistics.update, Statistics.getStats).  After any history of [N]
    update calls of which [k] succeeded (fewer than [2^63] calls, elapsed
    times that are numbers), the state has [sentCount = N],
    [respondedCount = k], [totalTime] equal to the running sum of the
    successful elapsed values, [minTime <= e <= maxTime] for every successful
    elapsed value [e], and the snapshot carries these with [avg = totalTime/k]
    when [k > 0] and [0] when [k = 0].  Moreover the first success of a
    history sets both [minTime] and [maxTime] to its own elapsed value. *)
Theorem update_sequence_summary (calls : list call) :
  within_int64 calls ->
  elapsed_are_numbers calls ->
  let s := run calls in
  let N := Z.of_nat (length calls) in
  let k := Z.of_nat (length (successes calls)) in
  sentCount s = N /\
  respondedCount s = k /\
  totalTime s = sum_elapsed (successes calls) /\
  (forall e, In e (successes calls) ->
     F64.leb (minTime s) e = true /\ F64.leb e (maxTime s) = true) /\
  getStats s =
    mkSnapshot N k (minTime s) (maxTime s)
      (if 0 <? k then F64.div (totalTime s) (F64.of_int k) else F64.zero) /\
  (forall pre e post,
     calls = pre ++ (e, true) :: post -> successes pre = [] ->
     minTime (run (pre ++ [(e, true)])) = e /\
     maxTime (run (pre ++ [(e, true)])) = e).
Proof.
  intros Hlen Hnum s N k.
  destruct (run_summarises calls Hlen Hnum) as (Hsent & Hresp & Htot & Hrange).
  fold s in Hsent, Hresp, Htot, Hrange.
  repeat split; try assumption; try (now apply Hrange).
  - unfold getStats. rewrite Hsent, Hresp. reflexivity.
  - rewrite run_snoc. unfold apply_call. cbn [fst snd].
    rewrite update_first_success by now apply run_without_success.
    reflexivity.
  - rewrite run_snoc. unfold apply_call. cbn [fst snd].
    rewrite update_first_success by now apply run_without_success.
    reflexivity.
Qed.

Lemma update_sequence_summary_witness :
  within_int64 sample_calls /\
  elapsed_are_numbers sample_calls /\
  sentCount (run sample_calls) = 3 /\
  respondedCount (run sample_calls) = 2 /\
  F64.leb (minTime (run sample_calls)) (elapsed_of_micros 2500) = true /\
  F64.leb (elapsed_of_micros 2500) (maxTime (run sample_calls)) = true.
Proof.
  assert (Hlen : within_int64 sample_calls) by (vm_compute; discriminate).
  assert (Hnum : elapsed_are_numbers sample_calls)
    by (repeat constructor).
  destruct (update_sequence_summary sample_calls Hlen Hnum)
    as (Hsent & Hresp & _ & Hrange & _).
  split; [exact Hlen|]. split; [exact Hnum|].
  split; [exact Hsent|]. split; [exact Hresp|].
  apply Hrange. left. reflexivity.
Defined.

(** C4 (Statistics.update).  Every state reachable from the zero state by
    update calls (fewer than [2^63 - 1] so far, elapsed times that are
    numbers) satisfies [respondedCount <= sentCount] and
    [minTime <= maxTime] once [respondedCount >= 1]; one more update leaves
    neither counter smaller and preserves the invariant. *)
Theorem reachable_invariant n s :
  reachable n s ->
  Z.of_nat n < Int64.max_int ->
  stats_inv s /\
  forall elapsed success,
    (success = true -> F64.is_nan elapsed = false) ->
    sentCount s <= sentCount (update s elapsed success) /\
    respondedCount s <= respondedCount (update s elapsed success) /\
    stats_inv (update s elapsed success).
Proof.
  intros Hr Hn.
  destruct (reachable_sent n s Hr) as [Hs Hinv]; [lia|].
  split; [exact Hinv|]. intros elapsed success Hnum.
  destruct (update_preserves_inv s elapsed success) as (H1 & H2 & H3);
    try assumption; [lia|].
  repeat split; try lia; apply H3.
Qed.

Lemma reachable_invariant_witness :
  stats_inv (update newStatistics (elapsed_of_micros 2500) true) /\
  stats_inv (update (update newStatistics (elapsed_of_micros 2500) true)
                    (elapsed_of_micros 1250) true).
Proof.
  assert (Hr : reachable 1 (update newStatistics (elapsed_of_micros 2500) true))
    by (apply reach_update; [apply reach_init | reflexivity]).
  assert (Hn : Z.of_nat 1 < Int64.max_int) by reflexivity.
  destruct (reachable_invariant 1 _ Hr Hn) as [Hinv Hstep].
  split; [exact Hinv|].
  apply (Hstep (elapsed_of_micros 1250) true). reflexivity.
Defined.

End StatisticsFacts.

(** ** The address resolver *)

Section ResolverFacts.

Context {net : NetLib}.

Lemma first_v4_first ipList ip :
  first_such isV4 ipList ip -> first_v4 ipList = Some ip.
Proof.
  intros (before & after & -> & Hip & Hbefore).
  induction before as [|x before IH]; cbn.
  - rewrite Hip. reflexivity.
  - rewrite (Hbefore x (or_introl eq_refl)). apply IH.
    intros y Hy. apply Hbefore. right. exact Hy.
Qed.

Lemma first_v6_first ipList ip :
  first_such (fun x => negb (isV4 x)) ipList ip -> first_v6 ipList = Some ip.
Proof.
  intros (before & after & -> & Hip & Hbefore).
  induction before as [|x before IH]; cbn.
  - rewrite Hip. reflexivity.
  - rewrite (Hbefore x (or_introl eq_refl)). apply IH.
    intros y Hy. apply Hbefore. right. exact Hy.
Qed.

Lemma first_v4_none ipList :
  (forall x, In x ipList -> isV4 x = false) -> first_v4 ipList = None.
Proof.
  induction ipList as [|x rest IH]; intros H; cbn; [reflexivity|].
  rewrite (H x (or_introl eq_refl)). apply IH.
  intros y Hy. apply H. right. exact Hy.
Qed.

Lemma first_v6_none ipList :
  (forall x, In x ipList -> isV4 x = true) -> first_v6 ipList = None.
Proof.
  induction ipList as [|x rest IH]; intros H; cbn; [reflexivity|].
  rewrite (H x (or_introl eq_refl)). apply IH.
  intros y Hy. apply H. right. exact Hy.
Qed.

Lemma nonempty_length (ipList : list IP) :
  ipList <> [] -> (length ipList =? 0)%nat = false.
Proof. destruct ipList; [contradiction | reflexivity]. Qed.

Lemma first_such_exists (p : IP -> bool) ipList :
  (exists x, In x ipList /\ p x = true) -> exists ip, first_such p ipList ip.
Proof.
  induction ipList as [|x rest IH]; intros (y & Hy & Hp); [contradiction|].
  destruct (p x) eqn:Hx.
  - exists x, [], rest. repeat split; [exact Hx | contradiction].
  - destruct Hy as [->|Hy]; [congruence|].
    destruct IH as (ip & before & after & -> & Hip & Hbefore); [eauto|].
    exists ip, (x :: before), after. repeat split; [exact Hip|].
    intros z [<-|Hz]; auto.
Qed.

(** C7 (resolveAddress, literal hosts).  For a host that parses as a literal
    IP: when IPv4 is requested and the literal is not IPv4, or IPv6 is
    requested and the literal is IPv4, the result is the corresponding
    family-mismatch error; otherwise an IPv4 literal is returned bare and an
    IPv6 literal between square brackets.  In particular [127.0.0.1] comes
    back unmodified under IPv4-only and is refused under IPv6-only. *)
Theorem resolve_literal (address : string) (ip : IP) :
  ParseIP address = Some ip ->
  (forall useIPv6, isV4 ip = false ->
     resolveAddress address true useIPv6 = Err (NotIPv4 address)) /\
  (forall useIPv4, isV4 ip = true ->
     resolveAddress address useIPv4 true = Err (NotIPv6 address)) /\
  (forall useIPv4, isV4 ip = true ->
     resolveAddress address useIPv4 false = Ok (IPString ip)) /\
  (forall useIPv6, isV4 ip = false ->
     resolveAddress address false useIPv6 = Ok ("[" ++ IPString ip ++ "]")%string) /\
  (forall e useIPv4 useIPv6,
     resolveAddress address useIPv4 useIPv6 = Err e -> family_mismatch e = true) /\
  (address = "127.0.0.1"%string -> isV4 ip = true -> IPString ip = "127.0.0.1"%string ->
     resolveAddress address true false = Ok "127.0.0.1"%string /\
     resolveAddress address false true = Err (NotIPv6 "127.0.0.1")).
Proof.
  intros Hparse. unfold resolveAddress. rewrite Hparse. cbn zeta.
  split; [|split; [|split; [|split; [|split]]]].
  - intros useIPv6 Hv. rewrite Hv. reflexivity.
  - intros useIPv4 Hv. rewrite Hv. cbn. rewrite andb_false_r. reflexivity.
  - intros useIPv4 Hv. rewrite Hv. cbn. rewrite andb_false_r. reflexivity.
  - intros useIPv6 Hv. rewrite Hv. cbn. rewrite andb_false_r. reflexivity.
  - intros e useIPv4 useIPv6.
    destruct useIPv4, useIPv6, (isV4 ip); cbn; intros H;
      try discriminate H; injection H as <-; reflexivity.
  - intros -> Hv Htext. rewrite Hv, Htext. split; reflexivity.
Qed.

(** C8 (resolveAddress, names).  For a host that is not a literal: a lookup
    error or an empty candidate list is a resolution failure; with a
    non-empty list, IPv4-only gives the first IPv4 candidate or fails when
    there is none, IPv6-only gives the first IPv6 candidate in brackets or
    fails when there is none, and with no family requested the first IPv4
    candidate is returned, the first IPv6 candidate (in brackets) being used
    only when the list holds no IPv4 candidate.  When both flags are set the
    IPv4 branch is the one taken. *)
Theorem resolve_by_lookup (address : string) (useIPv4 useIPv6 : bool) :
  ParseIP address = None ->
  let r := resolveAddress address useIPv4 useIPv6 in
  (forall err, LookupIP address = Err err -> r = Err (LookupFailed address err)) /\
  (LookupIP address = Ok [] -> r = Err (NoAddress address)) /\
  (forall ipList, LookupIP address = Ok ipList -> ipList <> [] ->
     (useIPv4 = true ->
        (forall ip, first_such isV4 ipList ip -> r = Ok (IPString ip)) /\
        ((forall x, In x ipList -> isV4 x = false) ->
           r = Err (NoIPv4Address address))) /\
     (useIPv4 = false -> useIPv6 = true ->
        (forall ip, first_such (fun x => negb (isV4 x)) ipList ip ->
           r = Ok (bracket (IPString ip))) /\
        ((forall x, In x ipList -> isV4 x = true) ->
           r = Err (NoIPv6Address address))) /\
     (useIPv4 = false -> useIPv6 = false ->
        (forall ip, first_such isV4 ipList ip -> r = Ok (IPString ip)) /\
        ((forall x, In x ipList -> isV4 x = false) ->
           exists ip rest, ipList = ip :: rest /\ r = Ok (bracket (IPString ip))))).
Proof.
  intros Hparse r. subst r. unfold resolveAddress. rewrite Hparse.
  split; [|split].
  - intros err ->. reflexivity.
  - intros ->. reflexivity.
  - intros ipList -> Hne. rewrite (nonempty_length ipList Hne).
    split; [|split].
    + intros ->. split.
      * intros ip Hip. now rewrite (first_v4_first _ _ Hip).
      * intros Hnone. now rewrite (first_v4_none _ Hnone).
    + intros -> ->. split.
      * intros ip Hip. now rewrite (first_v6_first _ _ Hip).
      * intros Hnone. now rewrite (first_v6_none _ Hnone).
    + intros -> ->. split.
      * intros ip Hip. now rewrite (first_v4_first _ _ Hip).
      * intros Hnone. rewrite (first_v4_none _ Hnone).
        destruct ipList as [|ip rest]; [contradiction|].
        exists ip, rest. split; [reflexivity|]. cbn.
        rewrite (Hnone ip (or_introl eq_refl)). reflexivity.
Qed.

End ResolverFacts.

Lemma resolve_literal_witness :
  resolveAddress (net := Fixture.net) "127.0.0.1" true false = Ok "127.0.0.1"%string /\
  resolveAddress (net := Fixture.net) "127.0.0.1" false true = Err (NotIPv6 "127.0.0.1") /\
  resolveAddress (net := Fixture.net) "::1" false false = Ok "[::1]"%string.
Proof.
  pose proof (resolve_literal (net := Fixture.net) "127.0.0.1" Fixture.Loopback4 eq_refl)
    as (_ & _ & _ & _ & _ & H4).
  pose proof (resolve_literal (net := Fixture.net) "::1" Fixture.Loopback6 eq_refl)
    as (_ & _ & _ & H6 & _).
  destruct (H4 eq_refl eq_refl eq_refl) as [Ha Hb].
  split; [exact Ha|]. split; [exact Hb|].
  exact (H6 false eq_refl).
Defined.

Lemma resolve_by_lookup_witness :
  resolveAddress (net := Fixture.net) "localhost" false false = Ok "127.0.0.1"%string.
Proof.
  pose proof (resolve_by_lookup (net := Fixture.net) "localhost" false false eq_refl)
    as (_ & _ & H).
  assert (Hne : [Fixture.Loopback6; Fixture.Loopback4] <> []) by discriminate.
  destruct (H _ eq_refl Hne) as (_ & _ & Hauto).
  destruct (Hauto eq_refl eq_refl) as [Hfirst _].
  apply (Hfirst Fixture.Loopback4).
  exists [Fixture.Loopback6], []. repeat split.
  intros x [<-|[]]. reflexivity.
Defined.

(** ** Option validation *)

Section ValidationFacts.

(** C10 (validateOptions).  With a host and no positional port, a [-p] value
    that is zero or negative is ignored: the port is the default ["80"] and,
    the other options being valid, no error is raised.  A positional port
    that is not a decimal numeral, or whose value lies outside [1, 65535], is
    rejected whatever the options are. *)
Theorem nonpositive_port_option_ignored (opts : Options) (host : string) :
  UseIPv4 opts && UseIPv6 opts = false ->
  0 <= Interval opts ->
  0 <= Timeout opts ->
  Port opts <= 0 ->
  validateOptions opts [host] = Ok (host, "80"%string) /\
  (forall anyopts positional rest,
     Strconv.parse_decimal positional = None \/
     (exists n, Strconv.parse_decimal positional = Some n /\ (n < 1 \/ 65535 < n)) ->
     exists e, validateOptions anyopts (host :: positional :: rest) = Err e).
Proof.
  intros Hfam Hint Htmo Hport. split.
  - unfold validateOptions. rewrite Hfam.
    destruct (Z.ltb_spec (Interval opts) 0) as [?|_]; [lia|].
    destruct (Z.ltb_spec (Timeout opts) 0) as [?|_]; [lia|].
    destruct (Z.ltb_spec 0 (Port opts)) as [?|_]; [lia|].
    reflexivity.
  - intros anyopts positional rest Hbad. unfold validateOptions.
    destruct (UseIPv4 anyopts && UseIPv6 anyopts); [eauto|].
    destruct (Interval anyopts <? 0); [eauto|].
    destruct (Timeout anyopts <? 0); [eauto|].
    unfold Strconv.Atoi.
    destruct Hbad as [Hnone|(n & Hsome & Hrange)].
    + rewrite Hnone. eauto.
    + rewrite Hsome.
      destruct ((- Int64.half_modulus <=? n) && (n <=? Int64.max_int)); [|eauto].
      destruct (Z.leb_spec n 0) as [?|?]; [cbn; eauto|].
      destruct (Z.ltb_spec 65535 n) as [?|?]; [cbn; eauto|]. lia.
Qed.

Lemma nonpositive_port_option_ignored_witness :
  validateOptions opts_port_negative ["example.com"%string]
    = Ok ("example.com"%string, "80"%string) /\
  (exists e, validateOptions opts_port_negative
               ["example.com"; "70000"]%string = Err e) /\
  (exists e, validateOptions opts_port_negative
               ["example.com"; "http"]%string = Err e).
Proof.
  assert (Hport : Port opts_port_negative <= 0) by (cbn; lia).
  assert (Hint : 0 <= Interval opts_port_negative) by (cbn; lia).
  assert (Htmo : 0 <= Timeout opts_port_negative) by (cbn; lia).
  destruct (nonpositive_port_option_ignored opts_port_negative "example.com"
              eq_refl Hint Htmo Hport) as [Hdefault Hpositional].
  split; [exact Hdefault|]. split.
  - apply Hpositional. right. exists 70000. split; [reflexivity|lia].
  - apply Hpositional. left. reflexivity.
Defined.

End ValidationFacts.

(** ** One probe attempt *)

Section AttemptFacts.

Variables (address port ip : string) (opts : Options).

(** Without parent cancellation the connection the dial opened is closed,
    after the lines are printed. *)
Lemma pingOnce_closes_connection ctx_err conn micros stats seq :
  ctx_err <> Some Canceled ->
  existsb (closes conn)
    (snd (pingOnce ctx_err (mkDial (Connected conn) micros)
            address port stats seq ip opts)) = true.
Proof.
  intros Hctx. unfold pingOnce.
  destruct ctx_err as [[|]|]; [contradiction| |];
    cbn; destruct (VerboseMode opts); cbn; rewrite Nat.eqb_refl; reflexivity.
Qed.

(** An attempt that sees the parent cancelled leaves the statistics alone and
    prints the notice, no result line. *)
Lemma pingOnce_cancelled d stats seq :
  pingOnce (Some Canceled) d address port stats seq ip opts =
  (stats, [Printf (infoText InterruptNotice (ColorOutput opts)); DialCancel]).
Proof. reflexivity. Qed.

(** With the parent cancelled nothing is closed, whatever the dial returned. *)
Lemma pingOnce_cancelled_never_closes conn d stats seq :
  existsb (closes conn)
    (snd (pingOnce (Some Canceled) d address port stats seq ip opts)) = false.
Proof.
  rewrite pingOnce_cancelled. unfold infoText, colorText.
  destruct (ColorOutput opts); reflexivity.
Qed.

(** Every other attempt is counted. *)
Lemma pingOnce_counted ctx_err d stats seq :
  ctx_err <> Some Canceled ->
  fst (pingOnce ctx_err d address port stats seq ip opts) =
  update stats (elapsed_of_micros (dial_micros d))
    (match dial_res d with Connected _ => true | DialFailed _ => false end).
Proof.
  intros Hctx. unfold pingOnce.
  destruct ctx_err as [[|]|]; [contradiction| |]; destruct (dial_res d); reflexivity.
Qed.

End AttemptFacts.

(** C3 (pingOnce).  The claim fails on the path it names: when the dial has
    opened a connection and the parent context is then found cancelled on
    line 218, the attempt returns after the notice and the deferred
    [dialCancel]; the connection is never closed. *)
Theorem pingOnce_cancelled_after_connect_leaks :
  let r := pingOnce (Some Canceled) sample_connected
             "127.0.0.1" "80" newStatistics 0 "127.0.0.1" defaultOptions in
  dial_res sample_connected = Connected sample_conn /\
  snd r = [Printf (Plain, InterruptNotice); DialCancel] /\
  existsb (closes sample_conn) (snd r) = false.
Proof. cbn. repeat split. Qed.

(** ** Formatting *)

Module FmtFacts.
Import Fmt.

Local Open Scope string_scope.

Lemma digit_of_digit_char d :
  0 <= d < 10 -> Strconv.digit_of (digit_char d) = Some d.
Proof.
  intros H.
  assert (d = 0 \/ d = 1 \/ d = 2 \/ d = 3 \/ d = 4 \/
          d = 5 \/ d = 6 \/ d = 7 \/ d = 8 \/ d = 9) as Hd by lia.
  repeat (destruct Hd as [->|Hd]; [reflexivity|]). subst d. reflexivity.
Qed.

Lemma no_point_digit_char d : 0 <= d < 10 -> Ascii.eqb (digit_char d) "." = false.
Proof.
  intros H.
  assert (d = 0 \/ d = 1 \/ d = 2 \/ d = 3 \/ d = 4 \/
          d = 5 \/ d = 6 \/ d = 7 \/ d = 8 \/ d = 9) as Hd by lia.
  repeat (destruct Hd as [->|Hd]; [reflexivity|]). subst d. reflexivity.
Qed.

Lemma all_digits_app a b : all_digits (a ++ b) = all_digits a && all_digits b.
Proof.
  induction a as [|c a IH]; cbn; [reflexivity|].
  destruct (Strconv.digit_of c); [exact IH | reflexivity].
Qed.

Lemma length_app a b : String.length (a ++ b) = (String.length a + String.length b)%nat.
Proof. induction a as [|c a IH]; cbn; [reflexivity|]. now rewrite IH. Qed.

Lemma frac_digits_spec prec :
  forall n, all_digits (frac_digits prec n) = true /\
            String.length (frac_digits prec n) = prec.
Proof.
  induction prec as [|p IH]; intros n; cbn [frac_digits]; [split; reflexivity|].
  destruct (IH (n / 10)) as [Hd Hl].
  rewrite all_digits_app, length_app, Hd, Hl.
  cbn [all_digits String.length andb].
  rewrite digit_of_digit_char by (apply Z.mod_pos_bound; lia).
  split; [reflexivity | lia].
Qed.

Lemma no_point_app a b : no_point (a ++ b) = no_point a && no_point b.
Proof.
  induction a as [|c a IH]; cbn; [reflexivity|].
  rewrite IH. now rewrite andb_assoc.
Qed.

Lemma no_point_uint d : no_point (NilEmpty.string_of_uint d) = true.
Proof. induction d; cbn; auto. Qed.

Lemma no_point_Itoa n : no_point (Strconv.Itoa n) = true.
Proof.
  unfold Strconv.Itoa, NilZero.string_of_int, NilZero.string_of_uint.
  destruct (Z.to_int n) as [d|d]; destruct d; cbn; auto using no_point_uint.
Qed.

Lemma decimal_places_app a b :
  no_point a = true -> decimal_places (a ++ b) = decimal_places b.
Proof.
  induction a as [|c a IH]; cbn; [reflexivity|].
  intros H. apply andb_prop in H. destruct H as [Hc Ha].
  destruct (Ascii.eqb c "."); [discriminate|]. now apply IH.
Qed.

Lemma decimal_places_render n prec (sign : string) :
  no_point sign = true ->
  decimal_places (sign ++ render_scaled n prec) = Some prec.
Proof.
  intros Hs. unfold render_scaled.
  rewrite decimal_places_app by exact Hs.
  rewrite decimal_places_app by apply no_point_Itoa.
  cbn. destruct (frac_digits_spec prec n) as [-> ->]. reflexivity.
Qed.

(** [%.<prec>f] prints a finite number with exactly [prec] digits after the
    decimal point. *)
Lemma decimal_places_fixed prec x :
  is_finite x = true -> decimal_places (fixed prec x) = Some prec.
Proof.
  destruct x as [s|s| |s m e]; unfold fixed, is_finite; intros H;
    try discriminate H; destruct s; apply decimal_places_render; reflexivity.
Qed.

End FmtFacts.

(** ** The final summary *)

Section SummaryFacts.

(** C9 (printTCPingStatistics).  The totals line is printed exactly when
    [sentCount > 0] and the RTT line exactly when in addition
    [respondedCount > 0]; the totals line carries the loss percentage
    formatted with one decimal place, the RTT line min, max and avg formatted
    with two. *)
Theorem summary_lines_guarded (stats : Statistics) :
  let out := printTCPingStatistics stats in
  (existsb is_totals out = true <-> 0 < sentCount stats) /\
  (existsb is_rtt out = true <-> 0 < sentCount stats /\ 0 < respondedCount stats) /\
  (forall sent responded lost loss,
     In (StatsTotals sent responded lost loss) out ->
     loss = Fmt.fixed 1 (lossRate (sentCount stats) (respondedCount stats)) /\
     (is_finite (lossRate (sentCount stats) (respondedCount stats)) = true ->
      Fmt.decimal_places loss = Some 1%nat)) /\
  (forall min max avg,
     In (StatsRTT min max avg) out ->
     min = Fmt.fixed 2 (minTime stats) /\
     max = Fmt.fixed 2 (maxTime stats) /\
     avg = Fmt.fixed 2 (snap_avg (getStats stats)) /\
     (is_finite (minTime stats) = true -> Fmt.decimal_places min = Some 2%nat) /\
     (is_finite (maxTime stats) = true -> Fmt.decimal_places max = Some 2%nat) /\
     (is_finite (snap_avg (getStats stats)) = true ->
      Fmt.decimal_places avg = Some 2%nat)).
Proof.
  unfold printTCPingStatistics. cbn [snap_sent snap_responded snap_min snap_max getStats].
  destruct (Z.ltb_spec 0 (sentCount stats)) as [Hs|Hs];
    destruct (Z.ltb_spec 0 (respondedCount stats)) as [Hr|Hr]; cbn;
    (split; [|split; [|split]]);
    try (split; intros H; try discriminate H; auto; lia);
    try (intros ? ? ? ? H); try (intros ? ? ? H);
    repeat (destruct H as [H|H]; try discriminate H); try contradiction.
  - injection H as <- <- <- <-. split; [reflexivity|].
    apply FmtFacts.decimal_places_fixed.
  - injection H as <- <- <-.
    repeat split; apply FmtFacts.decimal_places_fixed.
  - injection H as <- <- <- <-. split; [reflexivity|].
    apply FmtFacts.decimal_places_fixed.
Qed.

Lemma summary_lines_guarded_witness :
  printTCPingStatistics (run sample_calls) =
    [StatsHeader; StatsTotals "3" "2" "1" "33.3"; StatsRTT "1.25" "2.50" "1.88"]%string /\
  printTCPingStatistics newStatistics = [StatsHeader] /\
  existsb is_rtt (printTCPingStatistics (run sample_calls)) = true.
Proof.
  split; [reflexivity|]. split; [reflexivity|].
  destruct (summary_lines_guarded (run sample_calls)) as (_ & Hrtt & _).
  apply Hrtt. split; reflexivity.
Defined.

End SummaryFacts.

(** ** The probe loop *)

Section ProbeLoopFacts.

Variables (w : world) (opts : Options) (address port ip : string).

Lemma update_sent s elapsed success :
  sentCount (update s elapsed success) = Int64.incr (sentCount s).
Proof.
  unfold update. destruct success; cbn; [|reflexivity].
  destruct (Int64.incr (respondedCount s) =? 1); cbn; [reflexivity|].
  destruct (F64.ltb elapsed (minTime s)); cbn;
    destruct (F64.gtb elapsed (maxTime s)); reflexivity.
Qed.

Lemma ctx_done_never t : cancel_at w = None -> ctx_done w t = false.
Proof. unfold ctx_done. now intros ->. Qed.

Lemma ctx_done_mono t t' :
  (t <= t')%nat -> ctx_done w t = true -> ctx_done w t' = true.
Proof.
  unfold ctx_done. destruct (cancel_at w) as [c|]; [|discriminate].
  intros Ht H. apply Nat.leb_le in H. apply Nat.leb_le. lia.
Qed.

Lemma seq_numbers_S start n :
  seq_numbers start (S n) = start :: seq_numbers (start + 1) n.
Proof.
  unfold seq_numbers. cbn [seq map]. f_equal; [lia|].
  rewrite <- seq_shift, map_map. apply map_ext. intros j. lia.
Qed.

(** With a bounded count and no cancellation, [j+1] more iterations from
    loop variable [n - (j+1)] run the attempts up to [n - 1] and stop. *)
Lemma bounded_loop_from j :
  forall fuel k i st,
    cancel_at w = None ->
    0 < Count opts <= Int64.max_int ->
    0 <= i ->
    i + Z.of_nat (S j) = Count opts ->
    sentCount (ls_stats st) = i ->
    (S j <= fuel)%nat ->
    exists st',
      probe_loop w opts address port ip fuel k i st = Exited LastDone st' /\
      ls_attempts st' = ls_attempts st ++ seq_numbers i (S j) /\
      sentCount (ls_stats st') = Count opts.
Proof.
  induction j as [|j IH]; intros fuel k i st Hnever Hcount Hi Hsum Hsent Hfuel;
    (destruct fuel as [|fuel]; [lia|]); cbn [probe_loop];
    (destruct (Z.eqb_spec (Count opts) 0) as [?|_]; [lia|]);
    (destruct (Z.ltb_spec i (Count opts)) as [_|?]; [|lia]);
    cbn [orb negb andb]; rewrite !ctx_done_never by assumption;
    unfold ctx_err_at; rewrite !ctx_done_never by assumption;
    pose proof (pingOnce_counted address port ip opts None (dial w i)
                  (ls_stats st) i ltac:(discriminate)) as Hcounted;
    destruct (pingOnce None (dial w i) address port (ls_stats st) i ip opts)
      as [stats' effects]; cbn [fst] in Hcounted;
    unfold Int64.sub; rewrite Int64Facts.wrap_small
      by (unfold Int64.in_range, Int64.max_int, Int64.half_modulus in *; lia).
  - destruct (Z.eqb_spec i (Count opts - 1)) as [_|?]; [|lia].
    eexists. split; [reflexivity|]. cbn. split; [f_equal; f_equal; lia|].
    rewrite Hcounted, update_sent, Int64Facts.incr_small by lia. lia.
  - destruct (Z.eqb_spec i (Count opts - 1)) as [?|_]; [lia|].
    cbn [andb]. rewrite Int64Facts.incr_small by lia.
    destruct (IH fuel (S k) (i + 1)
                (mkLoopState stats' (ls_effects st ++ effects) (ls_attempts st ++ [i])))
      as (st' & Hrun & Hatt & Hcnt); try assumption; try lia.
    + cbn. rewrite Hcounted, update_sent, Int64Facts.incr_small by lia. lia.
    + exists st'. split; [exact Hrun|]. split; [|exact Hcnt].
      rewrite Hatt. cbn [ls_attempts]. rewrite <- app_assoc.
      now rewrite (seq_numbers_S i (S j)).
Qed.

(** Unbounded, the loop is only ever left through a cancellation. *)
Lemma unbounded_loop_exit fuel :
  forall k i st how st',
    Count opts = 0 ->
    probe_loop w opts address port ip fuel k i st = Exited how st' ->
    is_cancel_exit how = true /\ cancel_at w <> None.
Proof.
  induction fuel as [|fuel IH]; intros k i st how st' Hcount; cbn [probe_loop];
    [discriminate|].
  rewrite Hcount. change (0 =? 0) with true. cbn [orb negb andb].
  destruct (ctx_done w (3 * k)) eqn:Hpre.
  - intros H. injection H as <- <-. split; [reflexivity|].
    unfold ctx_done in Hpre. destruct (cancel_at w); [discriminate|discriminate].
  - destruct (pingOnce _ (dial w i) address port (ls_stats st) i ip opts)
      as [stats' effects].
    destruct (ctx_done w (3 * k + 2) && negb (timer_first w k)) eqn:Hwait.
    + intros H. injection H as <- <-. split; [reflexivity|].
      apply andb_prop in Hwait. destruct Hwait as [Hwait _].
      unfold ctx_done in Hwait. destruct (cancel_at w); discriminate.
    + apply IH. exact Hcount.
Qed.

End ProbeLoopFacts.

(** *** What an uncancelled run leaves behind *)

Section ProbeLoopTrace.

Variables (w : world) (opts : Options) (address port ip : string).

Lemma printed_seqs_app a b :
  printed_seqs (a ++ b) = printed_seqs a ++ printed_seqs b.
Proof. apply flat_map_app. Qed.

Lemma count_notices_app a b :
  count_notices (a ++ b) = (count_notices a + count_notices b)%nat.
Proof. unfold count_notices. now rewrite filter_app, length_app. Qed.

Lemma count_dial_cancels_app a b :
  count_dial_cancels (a ++ b) = (count_dial_cancels a + count_dial_cancels b)%nat.
Proof. unfold count_dial_cancels. now rewrite filter_app, length_app. Qed.

(** A call that does not find the context cancelled prints one result line,
    carrying the sequence number it was given. *)
Lemma pingOnce_uncancelled_trace d stats i :
  printed_seqs (snd (pingOnce None d address port stats i ip opts)) = [Strconv.Itoa i] /\
  count_notices (snd (pingOnce None d address port stats i ip opts)) = 0%nat /\
  count_dial_cancels (snd (pingOnce None d address port stats i ip opts)) = 1%nat.
Proof.
  unfold pingOnce, successText, errorText, colorText.
  destruct (dial_res d), (VerboseMode opts), (ColorOutput opts); cbn; auto.
Qed.

Lemma attempt_uncancelled_trace st i :
  ls_attempts (attempt_uncancelled w opts address port ip st i) = ls_attempts st ++ [i] /\
  printed_seqs (ls_effects (attempt_uncancelled w opts address port ip st i)) =
    printed_seqs (ls_effects st) ++ [Strconv.Itoa i] /\
  count_notices (ls_effects (attempt_uncancelled w opts address port ip st i)) =
    count_notices (ls_effects st) /\
  count_dial_cancels (ls_effects (attempt_uncancelled w opts address port ip st i)) =
    S (count_dial_cancels (ls_effects st)) /\
  ls_stats (attempt_uncancelled w opts address port ip st i) =
    update (ls_stats st) (elapsed_of_micros (dial_micros (dial w i)))
      (match dial_res (dial w i) with Connected _ => true | DialFailed _ => false end).
Proof.
  unfold attempt_uncancelled.
  pose proof (pingOnce_uncancelled_trace (dial w i) (ls_stats st) i) as (Hp & Hn & Hd).
  pose proof (pingOnce_counted address port ip opts None (dial w i)
                (ls_stats st) i ltac:(discriminate)) as Hcounted.
  destruct (pingOnce None (dial w i) address port (ls_stats st) i ip opts)
    as [stats' effects]. cbn [fst snd] in *. cbn [ls_attempts ls_effects ls_stats].
  rewrite printed_seqs_app, count_notices_app, count_dial_cancels_app, Hp, Hn, Hd.
  repeat split; try lia. exact Hcounted.
Qed.

Lemma attempts_in_order_trace seqs :
  forall st,
    ls_attempts (attempts_in_order w opts address port ip seqs st) = ls_attempts st ++ seqs /\
    printed_seqs (ls_effects (attempts_in_order w opts address port ip seqs st)) =
      printed_seqs (ls_effects st) ++ map Strconv.Itoa seqs /\
    count_notices (ls_effects (attempts_in_order w opts address port ip seqs st)) =
      count_notices (ls_effects st) /\
    count_dial_cancels (ls_effects (attempts_in_order w opts address port ip seqs st)) =
      (count_dial_cancels (ls_effects st) + length seqs)%nat.
Proof.
  induction seqs as [|i seqs IH]; intros st; cbn [attempts_in_order fold_left map length].
  - rewrite !app_nil_r. repeat split; lia.
  - destruct (IH (attempt_uncancelled w opts address port ip st i))
      as (Ha & Hp & Hn & Hd).
    destruct (attempt_uncancelled_trace st i) as (Ha1 & Hp1 & Hn1 & Hd1 & _).
    unfold attempts_in_order in *.
    rewrite Ha, Hp, Hn, Hd, Ha1, Hp1, Hn1, Hd1, <- !app_assoc.
    repeat split; lia.
Qed.

(** One iteration of the loop when nothing is ever cancelled. *)
Lemma loop_step_uncancelled fuel k i st :
  cancel_at w = None ->
  (Count opts =? 0) || (i <? Count opts) = true ->
  probe_loop w opts address port ip (S fuel) k i st =
  if negb (Count opts =? 0) && (i =? Int64.sub (Count opts) 1)
  then Exited LastDone (attempt_uncancelled w opts address port ip st i)
  else probe_loop w opts address port ip fuel (S k) (Int64.incr i)
         (attempt_uncancelled w opts address port ip st i).
Proof.
  intros Hnever Hcond. cbn [probe_loop]. rewrite Hcond. cbn [negb].
  unfold ctx_err_at, attempt_uncancelled. rewrite !(ctx_done_never w) by assumption.
  destruct (pingOnce None (dial w i) address port (ls_stats st) i ip opts)
    as [stats' effects].
  cbn [andb]. reflexivity.
Qed.

Lemma bounded_loop_trace j :
  forall fuel k i st,
    cancel_at w = None ->
    0 < Count opts <= Int64.max_int ->
    0 <= i ->
    i + Z.of_nat (S j) = Count opts ->
    (S j <= fuel)%nat ->
    probe_loop w opts address port ip fuel k i st =
    Exited LastDone (attempts_in_order w opts address port ip (seq_numbers i (S j)) st).
Proof.
  induction j as [|j IH]; intros fuel k i st Hnever Hcount Hi Hsum Hfuel;
    (destruct fuel as [|fuel]; [lia|]);
    (rewrite loop_step_uncancelled;
       [|assumption|apply orb_true_iff; right; apply Z.ltb_lt; lia]);
    (destruct (Z.eqb_spec (Count opts) 0) as [?|_]; [lia|]); cbn [negb andb];
    unfold Int64.sub; rewrite Int64Facts.wrap_small
      by (unfold Int64.in_range, Int64.max_int, Int64.half_modulus in *; lia);
    rewrite (seq_numbers_S i).
  - destruct (Z.eqb_spec i (Count opts - 1)) as [_|?]; [|lia]. reflexivity.
  - destruct (Z.eqb_spec i (Count opts - 1)) as [?|_]; [lia|].
    rewrite Int64Facts.incr_small by lia.
    rewrite (IH fuel (S k) (i + 1)) by (assumption || lia). reflexivity.
Qed.

Lemma unbounded_loop_trace fuel :
  forall k i st,
    Count opts = 0 -> cancel_at w = None ->
    probe_loop w opts address port ip fuel k i st =
    StillRunning (attempts_in_order w opts address port ip (loop_seqs fuel i) st).
Proof.
  induction fuel as [|fuel IH]; intros k i st Hcount Hnever; [reflexivity|].
  rewrite loop_step_uncancelled by (assumption || (rewrite Hcount; reflexivity)).
  rewrite Hcount. change (0 =? 0) with true. cbn [negb andb].
  rewrite IH by assumption. reflexivity.
Qed.

Lemma loop_seqs_length n : forall i, length (loop_seqs n i) = n.
Proof. induction n as [|n IH]; intros i; cbn; [reflexivity | now rewrite IH]. Qed.

Lemma loop_seqs_small n :
  forall i, 0 <= i -> i + Z.of_nat n <= Int64.max_int ->
            loop_seqs n i = seq_numbers i n.
Proof.
  induction n as [|n IH]; intros i Hi Hmax; [reflexivity|].
  cbn [loop_seqs]. rewrite seq_numbers_S, Int64Facts.incr_small by lia.
  rewrite IH by lia. reflexivity.
Qed.

Lemma seq_numbers_length start n : length (seq_numbers start n) = n.
Proof. unfold seq_numbers. now rewrite length_map, length_seq. Qed.

End ProbeLoopTrace.

(** C5 (the loop of [main]).  With a count [n > 0] and no cancellation the
    loop, as soon as it is given [n] iterations, leaves through the [break]
    after the last attempt, and what it leaves behind is what [n] calls of
    [pingOnce] with the sequence numbers [0 .. n-1], made in this order, each
    counted, produce: [n] result lines carrying [0 .. n-1], [n] calls in all,
    no interruption notice, [sentCount = n].  With count [0] and no
    cancellation it is still running after any number of iterations, one call
    of [pingOnce] made in each with the successive values of the loop
    variable, and whenever it is left, it is left through one of the two
    cancellation returns. *)
Theorem probe_loop_count (w : world) (opts : Options) (address port ip : string) :
  (forall fuel,
     0 < Count opts <= Int64.max_int ->
     cancel_at w = None ->
     (Z.to_nat (Count opts) <= fuel)%nat ->
     exists st,
       probe_loop w opts address port ip fuel 0 0 loop_start = Exited LastDone st /\
       ls_attempts st = seq_numbers 0 (Z.to_nat (Count opts)) /\
       sentCount (ls_stats st) = Count opts /\
       st = attempts_in_order w opts address port ip
              (seq_numbers 0 (Z.to_nat (Count opts))) loop_start /\
       printed_seqs (ls_effects st) =
         map Strconv.Itoa (seq_numbers 0 (Z.to_nat (Count opts))) /\
       count_dial_cancels (ls_effects st) = Z.to_nat (Count opts) /\
       count_notices (ls_effects st) = 0%nat) /\
  (Count opts = 0 ->
     (cancel_at w = None ->
      forall fuel, exists st,
        probe_loop w opts address port ip fuel 0 0 loop_start = StillRunning st /\
        length (ls_attempts st) = fuel /\
        st = attempts_in_order w opts address port ip (loop_seqs fuel 0) loop_start /\
        count_dial_cancels (ls_effects st) = fuel /\
        (Z.of_nat fuel <= Int64.max_int ->
         printed_seqs (ls_effects st) = map Strconv.Itoa (seq_numbers 0 fuel))) /\
     (forall fuel how st,
        probe_loop w opts address port ip fuel 0 0 loop_start = Exited how st ->
        is_cancel_exit how = true /\ cancel_at w <> None)).
Proof.
  split.
  - intros fuel Hcount Hnever Hfuel.
    destruct (Z.to_nat (Count opts)) as [|j] eqn:Hj; [lia|].
    destruct (bounded_loop_from w opts address port ip j fuel 0%nat 0 loop_start)
      as (st & Hrun & Hatt & Hsent); try assumption; try reflexivity; try lia.
    pose proof (bounded_loop_trace w opts address port ip j fuel 0%nat 0 loop_start
                  Hnever Hcount ltac:(lia) ltac:(lia) Hfuel) as Htrace.
    assert (Hst : st = attempts_in_order w opts address port ip
                         (seq_numbers 0 (S j)) loop_start) by congruence.
    destruct (attempts_in_order_trace w opts address port ip
                (seq_numbers 0 (S j)) loop_start) as (_ & Hp & Hn & Hd).
    rewrite <- Hst in Hp, Hn, Hd. rewrite seq_numbers_length in Hd.
    exists st. repeat split; assumption.
  - intros Hcount. split.
    + intros Hnever fuel.
      pose proof (unbounded_loop_trace w opts address port ip fuel 0%nat 0 loop_start
                    Hcount Hnever) as Hrun.
      destruct (attempts_in_order_trace w opts address port ip
                  (loop_seqs fuel 0) loop_start) as (Ha & Hp & _ & Hd).
      rewrite loop_seqs_length in Hd.
      eexists. split; [exact Hrun|].
      split; [rewrite Ha; cbn; apply loop_seqs_length|].
      split; [reflexivity|]. split; [exact Hd|].
      intros Hfuel. rewrite Hp, loop_seqs_small by lia. reflexivity.
    + intros fuel how st Hrun.
      exact (unbounded_loop_exit w opts address port ip fuel _ _ _ _ _ Hcount Hrun).
Qed.

Lemma probe_loop_count_witness :
  exists st,
    probe_loop refusing_world (opts_count 3) "127.0.0.1" "9" "127.0.0.1"
               3 0 0 loop_start = Exited LastDone st /\
    ls_attempts st = [0; 1; 2] /\
    sentCount (ls_stats st) = 3 /\
    st = attempts_in_order refusing_world (opts_count 3) "127.0.0.1" "9" "127.0.0.1"
           [0; 1; 2] loop_start /\
    printed_seqs (ls_effects st) = ["0"; "1"; "2"]%string /\
    count_dial_cancels (ls_effects st) = 3%nat /\
    count_notices (ls_effects st) = 0%nat.
Proof.
  destruct (probe_loop_count refusing_world (opts_count 3)
              "127.0.0.1" "9" "127.0.0.1") as [Hbounded _].
  apply (Hbounded 3%nat).
  - cbn. unfold Int64.max_int, Int64.half_modulus. lia.
  - reflexivity.
  - cbn. lia.
Defined.

(** C6 (pingOnce and the loop of [main]).  When the attempt of iteration [k]
    starts uncancelled and finds the parent context cancelled after the dial
    has returned, the statistics are left as they were, the only text printed
    is the interruption notice, and the loop is left without another attempt
    within two iterations. *)
Theorem cancelled_attempt_ends_loop (w : world) (opts : Options)
    (address port ip : string) (fuel k : nat) (i : Z) (st : loop_state) :
  Count opts = 0 \/ i < Count opts ->
  ctx_done w (3 * k) = false ->
  ctx_done w (3 * k + 1) = true ->
  let notice := [Printf (infoText InterruptNotice (ColorOutput opts)); DialCancel] in
  pingOnce (ctx_err_at w (3 * k + 1)) (dial w i) address port (ls_stats st) i ip opts
    = (ls_stats st, notice) /\
  existsb is_result_line notice = false /\
  exists how,
    probe_loop w opts address port ip (S (S fuel)) k i st =
    Exited how (mkLoopState (ls_stats st) (ls_effects st ++ notice)
                            (ls_attempts st ++ [i])).
Proof.
  intros Hcond Hpre Hpost notice.
  assert (Herr : ctx_err_at w (3 * k + 1) = Some Canceled)
    by (unfold ctx_err_at; now rewrite Hpost).
  split; [rewrite Herr; reflexivity|].
  split; [unfold notice, infoText, colorText; destruct (ColorOutput opts); reflexivity|].
  cbn [probe_loop].
  assert (Hloop : (Count opts =? 0) || (i <? Count opts) = true).
  { destruct Hcond as [->|Hlt]; [reflexivity|].
    apply orb_true_iff. right. now apply Z.ltb_lt. }
  rewrite Hloop, Hpre, Herr. cbn [negb pingOnce].
  destruct (negb (Count opts =? 0) && (i =? Int64.sub (Count opts) 1));
    [eexists; reflexivity|].
  rewrite (ctx_done_mono w (3 * k + 1) (3 * k + 2)) by (lia || assumption).
  cbn [andb].
  destruct (negb (timer_first w k)); [eexists; reflexivity|].
  destruct (negb ((Count opts =? 0) || (Int64.incr i <? Count opts)));
    [eexists; reflexivity|].
  rewrite (ctx_done_mono w (3 * k + 1) (3 * S k)) by (lia || assumption).
  eexists; reflexivity.
Qed.

Lemma cancelled_attempt_ends_loop_witness :
  exists how,
    probe_loop interrupted_world defaultOptions "127.0.0.1" "80" "127.0.0.1"
               2 0 0 loop_start =
    Exited how (mkLoopState newStatistics
                  [Printf (Plain, InterruptNotice); DialCancel] [0]).
Proof.
  destruct (cancelled_attempt_ends_loop interrupted_world defaultOptions
              "127.0.0.1" "80" "127.0.0.1" 0 0 0 loop_start
              (or_introl eq_refl) eq_refl eq_refl) as (_ & _ & Hloop).
  exact Hloop.
Defined.

(** ** The shutdown race of [main] *)

Module ShutdownFacts.
Import Shutdown.

(** The [<-done] case waits for the goroutine: it is enabled only once the
    goroutine has exited. *)
Lemma done_case_waits opts s s' :
  exec opts MainTakesDone s = Some s' -> worker s = WorkerExited.
Proof.
  unfold exec. destruct (main_thread s), (worker s); try discriminate; reflexivity.
Qed.

(** The [<-interrupt] case does not: it is enabled wherever the goroutine
    stands. *)
Lemma interrupt_case_does_not_wait opts s :
  main_thread s = AtSelect -> signal_pending s = true ->
  exists s', exec opts MainTakesInterrupt s = Some s' /\ worker s' = worker s.
Proof.
  intros Hm Hsig. unfold exec. rewrite Hm, Hsig. eexists. split; reflexivity.
Qed.

(** Undisturbed, the statements of the goroutine between the return of the
    dial and the end of the attempt leave the statistics [pingOnce] returns. *)
Lemma attempt_steps_agree opts address port ip s i d :
  worker s = AfterDial i d ->
  exists s',
    run_schedule opts
      (if cancelled s then [WorkerProceeds]
       else [WorkerProceeds; WorkerProceeds; WorkerProceeds]) s = Some s' /\
    worker s' = AfterAttempt i /\
    stats s' =
      fst (pingOnce (if cancelled s then Some Canceled else None) d
             address port (stats s) i ip opts).
Proof.
  intros Hpc. destruct s as [pc m c sig st]. cbn in Hpc. subst pc.
  destruct c; cbn.
  - destruct m; eexists; repeat split.
  - unfold pingOnce.
    destruct m, (dial_res d); eexists; repeat split.
Qed.

(** C2 (the select of [main]).  The claim fails on the code: after the
    interrupt case [main] cancels and prints the summary at once, without
    waiting for [done].  In this schedule the goroutine has passed the check
    of line 218 when the interrupt arrives; the snapshot is taken with
    [sent = 0] while the goroutine stands before [stats.update], which it
    then runs. *)
Theorem interrupt_snapshot_precedes_worker_exit :
  exists s1 s2 s3 snapshot,
    run_schedule defaultOptions until_interrupt initial = Some s1 /\
    main_thread s1 = Interrupted /\
    run_schedule defaultOptions cancel_and_print s1 = Some s2 /\
    main_thread s2 = Printed snapshot /\
    worker s2 = Counting 0 sample_connected /\
    worker s2 <> WorkerExited /\
    snap_sent snapshot = 0 /\
    run_schedule defaultOptions late_update s2 = Some s3 /\
    sentCount (stats s3) = 1.
Proof.
  do 4 eexists.
  split; [reflexivity|]. split; [reflexivity|].
  split; [reflexivity|]. split; [reflexivity|].
  split; [reflexivity|]. split; [discriminate|].
  split; [reflexivity|]. split; reflexivity.
Qed.

End ShutdownFacts.

(** ** More on the statistics aggregator *)

Section StatisticsMore.

Lemma update_responded s elapsed success :
  respondedCount (update s elapsed success) =
  if success then Int64.incr (respondedCount s) else respondedCount s.
Proof.
  unfold update. destruct success; cbn; [|reflexivity].
  destruct (Int64.incr (respondedCount s) =? 1); cbn; [reflexivity|].
  destruct (F64.ltb elapsed (minTime s)); cbn;
    destruct (F64.gtb elapsed (maxTime s)); reflexivity.
Qed.

Lemma update_min_choice s elapsed :
  minTime (update s elapsed true) = elapsed \/
  minTime (update s elapsed true) = minTime s.
Proof.
  unfold update. cbn.
  destruct (Int64.incr (respondedCount s) =? 1); cbn; [now left|].
  destruct (F64.ltb elapsed (minTime s)); cbn;
    destruct (F64.gtb elapsed _); cbn; auto.
Qed.

Lemma update_max_choice s elapsed :
  maxTime (update s elapsed true) = elapsed \/
  maxTime (update s elapsed true) = maxTime s.
Proof.
  unfold update. cbn.
  destruct (Int64.incr (respondedCount s) =? 1); cbn; [now left|].
  destruct (F64.ltb elapsed (minTime s)); cbn;
    destruct (F64.gtb elapsed _); cbn; auto.
Qed.

Lemma length_successes_failures calls :
  (length (successes calls) + length (failures calls) = length calls)%nat.
Proof.
  unfold successes, failures. rewrite length_map.
  induction calls as [|[e [|]] calls IH]; cbn; lia.
Qed.

Lemma run_counts calls :
  within_int64 calls ->
  sentCount (run calls) = Z.of_nat (length calls) /\
  respondedCount (run calls) = Z.of_nat (length (successes calls)).
Proof.
  induction calls as [|c calls IH] using rev_ind; intros Hlen; [split; reflexivity|].
  apply within_int64_snoc in Hlen. destruct Hlen as [Hlen Hlt].
  destruct (IH Hlen) as [Hsent Hresp].
  pose proof (successes_length_le calls) as Hk.
  rewrite run_snoc, successes_snoc, !length_app. unfold apply_call.
  rewrite update_sent, update_responded, Hsent, Hresp.
  rewrite Int64Facts.incr_small by lia.
  destruct (snd c); cbn [length]; [rewrite Int64Facts.incr_small by lia|]; lia.
Qed.

(** X1 (Statistics.update).  As soon as a history holds a success, [minTime]
    and [maxTime] are elapsed values of successes of that history: they are
    observed values, never the zero the fields start with. *)
Theorem min_max_attained (calls : list call) :
  successes calls <> [] ->
  In (minTime (run calls)) (successes calls) /\
  In (maxTime (run calls)) (successes calls).
Proof.
  induction calls as [|[e ok] calls IH] using rev_ind; intros Hne;
    [contradiction|].
  rewrite run_snoc, successes_snoc in *. unfold apply_call. cbn [fst snd] in *.
  destruct ok.
  - destruct (successes calls) as [|e0 es] eqn:Hs.
    + rewrite update_first_success by now apply run_without_success.
      cbn. auto.
    + destruct IH as [Hmin Hmax]; [discriminate|].
      split; apply in_or_app.
      * destruct (update_min_choice (run calls) e) as [-> | ->];
          [right; now left | now left].
      * destruct (update_max_choice (run calls) e) as [-> | ->];
          [right; now left | now left].
  - rewrite app_nil_r in *. rewrite update_failure. cbn. auto.
Qed.

Lemma min_max_attained_witness :
  In (minTime (run sample_calls)) (successes sample_calls) /\
  In (maxTime (run sample_calls)) (successes sample_calls).
Proof.
  apply min_max_attained. discriminate.
Defined.

(** X2 (printTCPingStatistics after Statistics.update).  After a non-empty
    history of fewer than [2^63] calls the summary holds the totals line with
    the number of calls, the number of successes and, as lost, the number of
    failed calls. *)
Theorem summary_reports_counts (calls : list call) :
  within_int64 calls ->
  calls <> [] ->
  let N := Z.of_nat (length calls) in
  let k := Z.of_nat (length (successes calls)) in
  let lost := Z.of_nat (length (failures calls)) in
  In (StatsTotals (Strconv.Itoa N) (Strconv.Itoa k) (Strconv.Itoa lost)
                  (Fmt.fixed 1 (lossRate N k)))
     (printTCPingStatistics (run calls)).
Proof.
  intros Hlen Hne N k lost.
  destruct (run_counts calls Hlen) as [Hsent Hresp].
  pose proof (length_successes_failures calls) as Hsplit.
  unfold printTCPingStatistics, getStats.
  cbn [snap_sent snap_responded]. rewrite Hsent, Hresp. fold N k.
  assert (HN : 0 < N) by (subst N; destruct calls; [contradiction | cbn; lia]).
  destruct (Z.ltb_spec 0 N) as [_|?]; [|lia].
  assert (Hsub : Int64.sub N k = lost).
  { unfold Int64.sub. rewrite Int64Facts.wrap_small; [subst N k lost; lia|].
    unfold within_int64 in Hlen.
    unfold Int64.in_range, Int64.max_int, Int64.half_modulus in *.
    subst N k. lia. }
  right. left. unfold lossRate. rewrite !Hsub. reflexivity.
Qed.

Lemma summary_reports_counts_witness :
  In (StatsTotals "3" "2" "1" "33.3")%string
     (printTCPingStatistics (run sample_calls)).
Proof.
  assert (Hlen : within_int64 sample_calls) by (vm_compute; discriminate).
  assert (Hne : sample_calls <> []) by discriminate.
  exact (summary_reports_counts sample_calls Hlen Hne).
Defined.

End StatisticsMore.

(** ** More on option validation *)

Module StrconvFacts.
Import Strconv.

Lemma parse_digits_uint_acc d :
  forall acc : positive,
    parse_digits (Z.pos acc) (NilEmpty.string_of_uint d) =
    Some (Z.pos (Pos.of_uint_acc d acc)).
Proof.
  induction d; intros acc; cbn [NilEmpty.string_of_uint parse_digits Pos.of_uint_acc];
    [reflexivity| ..];
    change (digit_of _) with (Some 0) || change (digit_of _) with (Some 1) ||
    change (digit_of _) with (Some 2) || change (digit_of _) with (Some 3) ||
    change (digit_of _) with (Some 4) || change (digit_of _) with (Some 5) ||
    change (digit_of _) with (Some 6) || change (digit_of _) with (Some 7) ||
    change (digit_of _) with (Some 8) || change (digit_of _) with (Some 9);
    cbv iota; rewrite <- IHd; f_equal; lia.
Qed.

Lemma parse_digits_uint d :
  parse_digits 0 (NilEmpty.string_of_uint d) = Some (Z.of_N (Pos.of_uint d)).
Proof.
  induction d; cbn [NilEmpty.string_of_uint parse_digits Pos.of_uint];
    [reflexivity| ..];
    change (digit_of _) with (Some 0) || change (digit_of _) with (Some 1) ||
    change (digit_of _) with (Some 2) || change (digit_of _) with (Some 3) ||
    change (digit_of _) with (Some 4) || change (digit_of _) with (Some 5) ||
    change (digit_of _) with (Some 6) || change (digit_of _) with (Some 7) ||
    change (digit_of _) with (Some 8) || change (digit_of _) with (Some 9);
    cbv iota; [exact IHd | ..]; apply parse_digits_uint_acc.
Qed.

Lemma parse_decimal_uint d :
  d <> Decimal.Nil ->
  parse_decimal (NilEmpty.string_of_uint d) =
  parse_digits 0 (NilEmpty.string_of_uint d).
Proof.
  destruct d; [contradiction | ..]; intros _;
    cbn [NilEmpty.string_of_uint]; unfold parse_decimal; cbv iota beta;
    match goal with |- context [parse_digits 0 ?s] => destruct (parse_digits 0 s) end;
    reflexivity.
Qed.

Lemma parse_decimal_negative d :
  d <> Decimal.Nil ->
  parse_decimal (String "-" (NilEmpty.string_of_uint d)) =
  match parse_digits 0 (NilEmpty.string_of_uint d) with
  | Some v => Some (- v)
  | None => None
  end.
Proof.
  destruct d; [contradiction | ..]; intros _; reflexivity.
Qed.

Lemma string_of_uint_nonnil d :
  d <> Decimal.Nil -> NilZero.string_of_uint d = NilEmpty.string_of_uint d.
Proof. destruct d; [contradiction | reflexivity ..]. Qed.

(** The decimal text of an integer reads back as that integer. *)
Lemma parse_decimal_Itoa n : parse_decimal (Itoa n) = Some n.
Proof.
  unfold Itoa. destruct n as [|p|p]; [reflexivity| |];
    cbn [Z.to_int NilZero.string_of_int];
    pose proof (DecimalPos.Unsigned.to_uint_nonnil p) as Hnn;
    rewrite string_of_uint_nonnil by exact Hnn.
  - rewrite parse_decimal_uint by exact Hnn.
    now rewrite parse_digits_uint, DecimalPos.Unsigned.of_to.
  - rewrite parse_decimal_negative by exact Hnn.
    now rewrite parse_digits_uint, DecimalPos.Unsigned.of_to.
Qed.

Lemma Atoi_Itoa n : Int64.in_range n -> Atoi (Itoa n) = Some n.
Proof.
  intros [Hlo Hhi]. unfold Atoi. rewrite parse_decimal_Itoa.
  destruct (Z.leb_spec (- Int64.half_modulus) n); [|lia].
  destruct (Z.leb_spec n Int64.max_int); [reflexivity | lia].
Qed.

Lemma Atoi_in_range s n : Atoi s = Some n -> Int64.in_range n.
Proof.
  unfold Atoi. destruct (parse_decimal s) as [v|]; [|discriminate].
  destruct (Z.leb_spec (- Int64.half_modulus) v) as [Hlo|?]; [|discriminate].
  destruct (Z.leb_spec v Int64.max_int) as [Hhi|?]; [|discriminate].
  intros Hv. injection Hv as <-. split; assumption.
Qed.

End StrconvFacts.

Section ValidationMore.

(** X3 (validateOptions).  What an accepted command line guarantees: the
    family flags are not both set, interval and timeout are not negative,
    the host is the first argument, and the port is the second argument if
    there is one, else the decimal text of a positive [-p] value, else
    ["80"]; in each case it reads as an integer between 1 and 65535. *)
Theorem validateOptions_accepts (opts : Options) (args : list string)
    (host port : string) :
  validateOptions opts args = Ok (host, port) ->
  UseIPv4 opts && UseIPv6 opts = false /\
  0 <= Interval opts /\
  0 <= Timeout opts /\
  ((exists rest, args = host :: port :: rest) \/
   (args = [host] /\ 0 < Port opts /\ port = Strconv.Itoa (Port opts)) \/
   (args = [host] /\ Port opts <= 0 /\ port = "80"%string)) /\
  exists n, Strconv.Atoi port = Some n /\ 1 <= n <= 65535.
Proof.
  unfold validateOptions.
  destruct (UseIPv4 opts && UseIPv6 opts); [discriminate|].
  destruct (Z.ltb_spec (Interval opts) 0) as [?|Hint]; [discriminate|].
  destruct (Z.ltb_spec (Timeout opts) 0) as [?|Htmo]; [discriminate|].
  destruct args as [|h rest]; [discriminate|].
  set (p := match rest with
            | positional :: _ => positional
            | [] => if 0 <? Port opts then Strconv.Itoa (Port opts) else "80"%string
            end).
  destruct (Strconv.Atoi p) as [n|] eqn:Hn; [|discriminate].
  destruct (Z.leb_spec n 0) as [?|Hlo]; [discriminate|].
  destruct (Z.ltb_spec 65535 n) as [?|Hhi]; [discriminate|].
  cbn [orb]. intros H. injection H as <- <-.
  repeat split; try assumption.
  - subst p. destruct rest as [|positional rest]; [|left; eauto].
    right. destruct (Z.ltb_spec 0 (Port opts)); [left | right]; auto.
  - exists n. split; [exact Hn | lia].
Qed.

Lemma validateOptions_accepts_witness :
  exists n, Strconv.Atoi "8080" = Some n /\ 1 <= n <= 65535.
Proof.
  destruct (validateOptions_accepts opts_port_8080 ["example.com"%string]
              "example.com" "8080" eq_refl) as (_ & _ & _ & _ & H).
  exact H.
Defined.

(** X4 (validateOptions).  With valid other options and no positional port,
    a [-p] value between 1 and 65535 is accepted and the port is its decimal
    text; a larger value is refused as out of range. *)
Theorem port_option_used (opts : Options) (host : string) :
  UseIPv4 opts && UseIPv6 opts = false ->
  0 <= Interval opts ->
  0 <= Timeout opts ->
  Int64.in_range (Port opts) ->
  (1 <= Port opts <= 65535 ->
   validateOptions opts [host] = Ok (host, Strconv.Itoa (Port opts))) /\
  (65535 < Port opts -> validateOptions opts [host] = Err PortRange).
Proof.
  intros Hfam Hint Htmo Hrange. unfold validateOptions. rewrite Hfam.
  destruct (Z.ltb_spec (Interval opts) 0) as [?|_]; [lia|].
  destruct (Z.ltb_spec (Timeout opts) 0) as [?|_]; [lia|].
  split; intros Hport;
    (destruct (Z.ltb_spec 0 (Port opts)) as [_|?]; [|lia]);
    rewrite (StrconvFacts.Atoi_Itoa _ Hrange);
    (destruct (Z.leb_spec (Port opts) 0) as [?|_]; [lia|]).
  - destruct (Z.ltb_spec 65535 (Port opts)) as [?|_]; [lia | reflexivity].
  - destruct (Z.ltb_spec 65535 (Port opts)) as [_|?]; [reflexivity | lia].
Qed.

Lemma port_option_used_witness :
  validateOptions opts_port_8080 ["example.com"%string]
    = Ok ("example.com"%string, "8080"%string).
Proof.
  assert (Hint : 0 <= Interval opts_port_8080) by (cbn; lia).
  assert (Htmo : 0 <= Timeout opts_port_8080) by (cbn; lia).
  assert (Hrange : Int64.in_range (Port opts_port_8080))
    by (unfold Int64.in_range, Int64.max_int, Int64.half_modulus; cbn; lia).
  destruct (port_option_used opts_port_8080 "example.com" eq_refl Hint Htmo Hrange)
    as [Hok _].
  apply Hok. cbn. lia.
Defined.

(** X5 (validateOptions).  A positional port always wins: with two or more
    arguments the result does not depend on the [-p] value, on the count or
    display options, or on any argument after the second. *)
Theorem positional_port_wins (opts opts' : Options)
    (host positional : string) (rest rest' : list string) :
  UseIPv4 opts = UseIPv4 opts' ->
  UseIPv6 opts = UseIPv6 opts' ->
  Interval opts = Interval opts' ->
  Timeout opts = Timeout opts' ->
  validateOptions opts (host :: positional :: rest) =
  validateOptions opts' (host :: positional :: rest').
Proof.
  intros H4 H6 Hint Htmo. unfold validateOptions.
  rewrite H4, H6, Hint, Htmo. reflexivity.
Qed.

Lemma positional_port_wins_witness :
  validateOptions opts_port_8080 ["example.com"; "443"]%string =
  validateOptions defaultOptions ["example.com"; "443"; "ignored"]%string.
Proof.
  apply positional_port_wins; reflexivity.
Defined.

End ValidationMore.

(** ** More on the address resolver *)

Section ResolverMore.

Context {net : NetLib}.

Lemma first_v4_sound ipList ip :
  first_v4 ipList = Some ip -> In ip ipList /\ isV4 ip = true.
Proof.
  induction ipList as [|x rest IH]; cbn; [discriminate|].
  destruct (isV4 x) eqn:Hx.
  - intros H. injection H as <-. auto.
  - intros H. destruct (IH H). auto.
Qed.

Lemma first_v6_sound ipList ip :
  first_v6 ipList = Some ip -> In ip ipList /\ isV4 ip = false.
Proof.
  induction ipList as [|x rest IH]; cbn; [discriminate|].
  destruct (isV4 x) eqn:Hx; cbn.
  - intros H. destruct (IH H). auto.
  - intros H. injection H as <-. auto.
Qed.

Lemma no_family_empty ipList :
  first_v4 ipList = None -> first_v6 ipList = None -> ipList = [].
Proof.
  destruct ipList as [|x rest]; [reflexivity|]. cbn.
  destruct (isV4 x); cbn; discriminate.
Qed.

(** X6 (resolveAddress).  The fallback after the two loops of the
    no-preference case (lines 190-195) is dead code: no host, flags or lookup
    answer gets a call to line 190, the result is the same whatever stands in
    those lines, and [ipList[0]] never fails. *)
Theorem resolve_fallback_unreachable (address : string) (useIPv4 useIPv6 : bool) :
  reaches_fallback address useIPv4 useIPv6 = false /\
  resolveAddress address useIPv4 useIPv6 =
    resolveAddress_with source_fallback address useIPv4 useIPv6 /\
  (forall fallback,
     resolveAddress_with fallback address useIPv4 useIPv6 =
     resolveAddress address useIPv4 useIPv6) /\
  resolveAddress address useIPv4 useIPv6 <> Err IndexOutOfRange.
Proof.
  assert (Hdead : reaches_fallback address useIPv4 useIPv6 = false).
  { unfold reaches_fallback.
    destruct (ParseIP address) as [ip|]; [reflexivity|].
    destruct (LookupIP address) as [ipList|err]; [|reflexivity].
    destruct (first_v4 ipList) eqn:H4; [apply andb_false_r|].
    destruct (first_v6 ipList) eqn:H6; [apply andb_false_r|].
    rewrite (no_family_empty _ H4 H6). reflexivity. }
  assert (Hany : forall fallback,
             resolveAddress_with fallback address useIPv4 useIPv6 =
             resolveAddress address useIPv4 useIPv6).
  { intros fallback. unfold resolveAddress_with, resolveAddress.
    destruct (ParseIP address) as [ip|]; [reflexivity|].
    destruct (LookupIP address) as [ipList|err]; [|reflexivity].
    destruct ipList as [|x rest]; [reflexivity|].
    cbn [length Nat.eqb].
    destruct useIPv4; [reflexivity|]. destruct useIPv6; [reflexivity|].
    destruct (first_v4 (x :: rest)) eqn:H4; [reflexivity|].
    destruct (first_v6 (x :: rest)) eqn:H6; [reflexivity|].
    pose proof (no_family_empty _ H4 H6). discriminate. }
  split; [exact Hdead|]. split; [reflexivity|]. split; [exact Hany|].
  rewrite <- (Hany (fun _ => Err (NoAddress address))).
  unfold resolveAddress_with.
  destruct (ParseIP address) as [ip|].
  - destruct useIPv4, useIPv6, (isV4 ip); cbn; discriminate.
  - destruct (LookupIP address) as [ipList|err]; [|discriminate].
    destruct (length ipList =? 0)%nat; [discriminate|].
    destruct useIPv4; [destruct (first_v4 _); discriminate|].
    destruct useIPv6; [destruct (first_v6 _); discriminate|].
    destruct (first_v4 ipList); [discriminate|].
    destruct (first_v6 ipList); discriminate.
Qed.

(** X7 (resolveAddress).  A successful resolution returns the text of the
    literal, or of one of the addresses the lookup returned, in brackets
    exactly when it is not IPv4; with IPv4 requested that address is IPv4,
    and with only IPv6 requested it is not. *)
Theorem resolve_sound (address : string) (useIPv4 useIPv6 : bool) (s : string) :
  resolveAddress address useIPv4 useIPv6 = Ok s ->
  exists ip,
    (ParseIP address = Some ip \/
     (ParseIP address = None /\
      exists ipList, LookupIP address = Ok ipList /\ In ip ipList)) /\
    s = (if isV4 ip then IPString ip else bracket (IPString ip)) /\
    (useIPv4 = true -> isV4 ip = true) /\
    (useIPv4 = false -> useIPv6 = true -> isV4 ip = false).
Proof.
  unfold resolveAddress.
  destruct (ParseIP address) as [ip|] eqn:Hparse.
  - intros H. exists ip. split; [now left|].
    destruct useIPv4, useIPv6, (isV4 ip); cbn in H; try discriminate H;
      injection H as <-; repeat split; auto; discriminate.
  - destruct (LookupIP address) as [ipList|err] eqn:Hlookup; [|discriminate].
    destruct (length ipList =? 0)%nat; [discriminate|].
    destruct useIPv4.
    + destruct (first_v4 ipList) as [ip|] eqn:H4; [|discriminate].
      intros H. injection H as <-.
      destruct (first_v4_sound _ _ H4) as [Hin Hv].
      exists ip. rewrite Hv. split; [right; eauto|].
      repeat split; auto; discriminate.
    + destruct useIPv6.
      * destruct (first_v6 ipList) as [ip|] eqn:H6; [|discriminate].
        intros H. injection H as <-.
        destruct (first_v6_sound _ _ H6) as [Hin Hv].
        exists ip. rewrite Hv. split; [right; eauto|].
        repeat split; auto; discriminate.
      * destruct (first_v4 ipList) as [ip|] eqn:H4.
        -- intros H. injection H as <-.
           destruct (first_v4_sound _ _ H4) as [Hin Hv].
           exists ip. rewrite Hv. split; [right; eauto|].
           repeat split; auto; discriminate.
        -- destruct (first_v6 ipList) as [ip|] eqn:H6.
           ++ intros H. injection H as <-.
              destruct (first_v6_sound _ _ H6) as [Hin Hv].
              exists ip. rewrite Hv. split; [right; eauto|].
              repeat split; auto; discriminate.
           ++ rewrite (no_family_empty _ H4 H6). discriminate.
Qed.

(** X8 (main with getIPType and resolveAddress).  For a literal host [main]
    derives the family from the literal: an IPv4 literal resolves to its bare
    text unless [-6] is given, an IPv6 literal to its bracketed text unless
    [-4] is given, and the opposite flag gives the mismatch error.  For any
    other host the two flags are passed on as given. *)
Theorem main_resolve_cases (opts : Options) (host : string) :
  (forall ip, ParseIP host = Some ip -> isV4 ip = true ->
     main_resolve opts host =
     if UseIPv6 opts then Err (NotIPv6 host) else Ok (IPString ip)) /\
  (forall ip, ParseIP host = Some ip -> isV4 ip = false ->
     main_resolve opts host =
     if UseIPv4 opts then Err (NotIPv4 host) else Ok (bracket (IPString ip))) /\
  (ParseIP host = None ->
     main_resolve opts host = resolveAddress host (UseIPv4 opts) (UseIPv6 opts)).
Proof.
  unfold main_resolve, getIPType, resolveAddress. repeat split.
  - intros ip -> Hv. rewrite Hv.
    destruct (UseIPv4 opts), (UseIPv6 opts); reflexivity.
  - intros ip -> Hv. rewrite Hv.
    destruct (UseIPv4 opts), (UseIPv6 opts); reflexivity.
  - intros ->. cbn. rewrite andb_false_r, !orb_false_r. reflexivity.
Qed.

End ResolverMore.

Lemma resolve_sound_witness :
  exists ip,
    (Fixture.parse "localhost" = Some ip \/
     (Fixture.parse "localhost" = None /\
      exists ipList, Fixture.lookup "localhost" = Ok ipList /\ In ip ipList)) /\
    "[::1]"%string =
      (if Fixture.is_v4 ip then Fixture.text ip else bracket (Fixture.text ip)) /\
    (false = true -> Fixture.is_v4 ip = true) /\
    (false = false -> true = true -> Fixture.is_v4 ip = false).
Proof.
  exact (resolve_sound (net := Fixture.net) "localhost" false true "[::1]" eq_refl).
Defined.

Lemma main_resolve_cases_witness :
  main_resolve (net := Fixture.net) opts_force_v6 "127.0.0.1" = Err (NotIPv6 "127.0.0.1") /\
  main_resolve (net := Fixture.net) opts_force_v4 "::1" = Err (NotIPv4 "::1") /\
  main_resolve (net := Fixture.net) defaultOptions "::1" = Ok "[::1]"%string.
Proof.
  destruct (main_resolve_cases (net := Fixture.net) opts_force_v6 "127.0.0.1")
    as (H4 & _ & _).
  destruct (main_resolve_cases (net := Fixture.net) opts_force_v4 "::1")
    as (_ & H6 & _).
  destruct (main_resolve_cases (net := Fixture.net) defaultOptions "::1")
    as (_ & H6' & _).
  split; [exact (H4 Fixture.Loopback4 eq_refl eq_refl)|].
  split; [exact (H6 Fixture.Loopback6 eq_refl eq_refl)|].
  exact (H6' Fixture.Loopback6 eq_refl eq_refl).
Defined.

(** ** The displayed address *)

Section DisplayFacts.

Local Open Scope string_scope.

Lemma substring_whole s t : substring 0 (String.length s) (s ++ t) = s.
Proof. induction s as [|c s IH]; cbn; [now destruct t | now rewrite IH]. Qed.

Lemma substring_tail s t :
  substring (String.length s) (String.length t) (s ++ t) = t.
Proof.
  induction s as [|c s IH]; cbn [String.length append substring]; [|exact IH].
  induction t as [|c t IH]; cbn; [reflexivity | now rewrite IH].
Qed.

(** X9 (main, lines 390-395).  The brackets that [resolveAddress] puts around
    an IPv6 address are taken off again for display and the label is IPv6;
    an address that does not start with a bracket is shown as it is, with
    the label IPv4. *)
Theorem displayAddress_bracket (s address : string) :
  displayAddress (bracket s) = ("IPv6", s) /\
  (HasPrefix address "[" = false -> displayAddress address = ("IPv4", address)).
Proof.
  split.
  - unfold displayAddress, HasPrefix, HasSuffix, bracket.
    cbn [append String.prefix String.length].
    rewrite FmtFacts.length_app. cbn [String.length].
    replace (S (String.length s + 1) - 1)%nat with (S (String.length s)) by lia.
    replace (S (String.length s) - 1)%nat with (String.length s) by lia.
    cbn [substring].
    destruct (ascii_dec "[" "[") as [_|Hne]; [|contradiction].
    rewrite substring_whole.
    pose proof (substring_tail s "]") as Htail. cbn [String.length] in Htail.
    rewrite Htail, String.eqb_refl.
    destruct (s ++ "]"); reflexivity.
  - intros Hp. unfold displayAddress. rewrite Hp. reflexivity.
Qed.

Lemma displayAddress_bracket_witness :
  displayAddress "[::1]" = ("IPv6", "::1") /\
  displayAddress "127.0.0.1" = ("IPv4", "127.0.0.1").
Proof.
  destruct (displayAddress_bracket "::1" "127.0.0.1") as [H6 H4].
  split; [exact H6 | exact (H4 eq_refl)].
Defined.

End DisplayFacts.

(** ** More on one probe attempt *)

Section AttemptMore.

Variables (address port ip : string) (opts : Options).

(** X10 (pingOnce).  On every path, the cancelled one included, the deferred
    [dialCancel] runs exactly once and is the last thing the attempt does. *)
Theorem pingOnce_releases_dial_context ctx_err d stats seq :
  exists before,
    snd (pingOnce ctx_err d address port stats seq ip opts) = before ++ [DialCancel] /\
    existsb is_dial_cancel before = false.
Proof.
  unfold pingOnce.
  destruct ctx_err as [[|]|], (dial_res d) as [conn|err], (VerboseMode opts);
    cbn [snd app];
    match goal with
    | |- exists before, ?effects = _ /\ _ => exists (removelast effects)
    end; split; reflexivity.
Qed.

(** X11 (pingOnce).  Unless the parent is found cancelled, the effects are
    the printed lines, then the close of the connection the dial opened (no
    close at all after a failed dial), then [dialCancel]. *)
Theorem pingOnce_effect_order ctx_err d stats seq :
  ctx_err <> Some Canceled ->
  exists prints,
    forallb is_print prints = true /\
    snd (pingOnce ctx_err d address port stats seq ip opts) =
      prints
      ++ match dial_res d with
         | Connected conn => [Close conn]
         | DialFailed _ => []
         end
      ++ [DialCancel].
Proof.
  intros Hctx. unfold pingOnce.
  destruct ctx_err as [[|]|]; [contradiction| |];
    destruct (dial_res d) as [conn|err], (VerboseMode opts); cbn [snd app];
    match goal with
    | |- exists prints, _ /\ ?effects = _ => exists (filter is_print effects)
    end; split; reflexivity.
Qed.

(** X12 (pingOnce).  Unless the parent is found cancelled, an attempt prints
    exactly one result line, a success line exactly when the dial connected,
    followed by exactly one detail line in verbose mode and by none
    otherwise. *)
Theorem pingOnce_line_count ctx_err d stats seq :
  ctx_err <> Some Canceled ->
  let effects := snd (pingOnce ctx_err d address port stats seq ip opts) in
  length (filter is_result_line effects) = 1%nat /\
  length (filter is_detail_line effects) = (if VerboseMode opts then 1 else 0)%nat /\
  length (printed effects) = (if VerboseMode opts then 2 else 1)%nat /\
  (forall c ip' port' seq' elapsed,
     In (c, SuccessLine ip' port' seq' elapsed) (printed effects) ->
     exists conn, dial_res d = Connected conn) /\
  (forall c ip' port' seq' err,
     In (c, FailureLine ip' port' seq' err) (printed effects) ->
     dial_res d = DialFailed err).
Proof.
  intros Hctx. unfold pingOnce, successText, errorText, colorText.
  destruct ctx_err as [[|]|]; [contradiction| |];
    destruct (dial_res d) as [conn|err], (VerboseMode opts), (ColorOutput opts);
    cbn; repeat split; intros;
    repeat match goal with
    | H : _ \/ _ |- _ => destruct H
    | H : False |- _ => contradiction
    | H : (_, _) = (_, _) |- _ => try discriminate H; injection H as <- <- <- <- <-
    end; eauto.
Qed.

(** X13 (pingOnce with colorText).  Without [-c] every text is printed
    without colour; with [-c] a response is green, a failure red, the
    interruption notice cyan, and the verbose lines stay uncoloured. *)
Theorem pingOnce_colours ctx_err d stats seq :
  forall c l,
    In (c, l) (printed (snd (pingOnce ctx_err d address port stats seq ip opts))) ->
    c = if ColorOutput opts then line_colour l else Plain.
Proof.
  intros c l. unfold pingOnce, successText, errorText, infoText, colorText.
  destruct ctx_err as [[|]|], (dial_res d) as [conn|err], (VerboseMode opts),
    (ColorOutput opts); cbn; intros H;
    repeat (destruct H as [H|H]; [injection H as <- <-; reflexivity|]);
    contradiction.
Qed.

End AttemptMore.

Lemma pingOnce_effect_order_witness :
  exists prints,
    forallb is_print prints = true /\
    snd (pingOnce None sample_connected "127.0.0.1" "80" newStatistics 0
           "127.0.0.1" opts_color_verbose) =
    prints ++ [Close sample_conn] ++ [DialCancel].
Proof.
  apply (pingOnce_effect_order "127.0.0.1" "80" "127.0.0.1" opts_color_verbose
           None sample_connected newStatistics 0).
  discriminate.
Defined.

Lemma pingOnce_line_count_witness :
  length (printed (snd (pingOnce None sample_connected "127.0.0.1" "80"
                          newStatistics 0 "127.0.0.1" opts_color_verbose))) = 2%nat.
Proof.
  assert (Hctx : @None ctx_error <> Some Canceled) by discriminate.
  destruct (pingOnce_line_count "127.0.0.1" "80" "127.0.0.1" opts_color_verbose
              None sample_connected newStatistics 0 Hctx) as (_ & _ & H & _).
  exact H.
Defined.

Lemma pingOnce_colours_witness :
  Green = line_colour (SuccessLine "127.0.0.1" "80" "0" "2.50").
Proof.
  apply (pingOnce_colours "127.0.0.1" "80" "127.0.0.1" opts_color_verbose
           None sample_connected newStatistics 0
           Green (SuccessLine "127.0.0.1" "80" "0" "2.50")).
  left. reflexivity.
Defined.

(** ** More on the probe loop *)

Section ProbeLoopMore.

Variables (w : world) (opts : Options) (address port ip : string).

(** Once the context is cancelled before an attempt, nothing more happens. *)
Lemma loop_after_cancel fuel k i st :
  ctx_done w (3 * k) = true ->
  result_state (probe_loop w opts address port ip fuel k i st) = st.
Proof.
  intros Hdone. destruct fuel as [|fuel]; [reflexivity|]. cbn [probe_loop].
  destruct (negb ((Count opts =? 0) || (i <? Count opts))); [reflexivity|].
  rewrite Hdone. reflexivity.
Qed.

Lemma loop_step_stops fuel k i st :
  (Count opts =? 0) || (i <? Count opts) = false \/ ctx_done w (3 * k) = true ->
  result_state (probe_loop w opts address port ip (S fuel) k i st) = st.
Proof.
  intros H. cbn [probe_loop].
  destruct ((Count opts =? 0) || (i <? Count opts)); cbn [negb]; [|reflexivity].
  destruct H as [H|H]; [discriminate|]. rewrite H. reflexivity.
Qed.

Lemma loop_step_cancelled fuel k i st :
  (Count opts =? 0) || (i <? Count opts) = true ->
  ctx_done w (3 * k) = false ->
  ctx_done w (3 * k + 1) = true ->
  result_state (probe_loop w opts address port ip (S fuel) k i st) =
  mkLoopState (ls_stats st)
    (ls_effects st ++ [Printf (infoText InterruptNotice (ColorOutput opts)); DialCancel])
    (ls_attempts st ++ [i]).
Proof.
  intros Hcond Hpre Hpost. cbn [probe_loop]. rewrite Hcond, Hpre. cbn [negb].
  unfold ctx_err_at. rewrite Hpost, pingOnce_cancelled.
  destruct (negb (Count opts =? 0) && (i =? Int64.sub (Count opts) 1)); [reflexivity|].
  destruct (ctx_done w (3 * k + 2) && negb (timer_first w k)); [reflexivity|].
  apply loop_after_cancel.
  apply (ctx_done_mono w (3 * k + 1)); [lia | exact Hpost].
Qed.

Lemma loop_step_counted fuel k i st :
  (Count opts =? 0) || (i <? Count opts) = true ->
  ctx_done w (3 * k) = false ->
  ctx_done w (3 * k + 1) = false ->
  probe_loop w opts address port ip (S fuel) k i st =
  if negb (Count opts =? 0) && (i =? Int64.sub (Count opts) 1)
  then Exited LastDone (attempt_uncancelled w opts address port ip st i)
  else if ctx_done w (3 * k + 2) && negb (timer_first w k)
       then Exited CancelledWaiting (attempt_uncancelled w opts address port ip st i)
       else probe_loop w opts address port ip fuel (S k) (Int64.incr i)
              (attempt_uncancelled w opts address port ip st i).
Proof.
  intros Hcond Hpre Hpost. cbn [probe_loop]. rewrite Hcond, Hpre. cbn [negb].
  unfold ctx_err_at, attempt_uncancelled. rewrite Hpost.
  destruct (pingOnce None (dial w i) address port (ls_stats st) i ip opts)
    as [stats' effects].
  reflexivity.
Qed.

(** Every run, cancelled or not: [m] calls of [pingOnce] with the sequence
    numbers from [i] on, of which the last [u <= 1] found the context
    cancelled. *)
Lemma loop_trace_from fuel :
  forall k i st n,
    0 <= i -> i + Z.of_nat fuel <= Int64.max_int ->
    reachable n (ls_stats st) ->
    exists m u,
      (m <= fuel)%nat /\ (u <= 1)%nat /\ (u <= m)%nat /\
      (u = 1%nat -> ctx_done w (3 * (k + (m - 1)) + 1) = true) /\
      (forall j, (j < m - u)%nat -> ctx_done w (3 * (k + j) + 1) = false) /\
      ls_attempts (result_state (probe_loop w opts address port ip fuel k i st)) =
        ls_attempts st ++ seq_numbers i m /\
      count_dial_cancels
        (ls_effects (result_state (probe_loop w opts address port ip fuel k i st))) =
        (count_dial_cancels (ls_effects st) + m)%nat /\
      printed_seqs
        (ls_effects (result_state (probe_loop w opts address port ip fuel k i st))) =
        printed_seqs (ls_effects st) ++ map Strconv.Itoa (seq_numbers i (m - u)) /\
      count_notices
        (ls_effects (result_state (probe_loop w opts address port ip fuel k i st))) =
        (count_notices (ls_effects st) + u)%nat /\
      reachable (n + (m - u))
        (ls_stats (result_state (probe_loop w opts address port ip fuel k i st))) /\
      (Count opts <> 0 -> m = 0%nat \/ i + Z.of_nat m <= Count opts).
Proof.
  induction fuel as [|fuel IH]; intros k i st n Hi Hmax Hreach.
  - exists 0%nat, 0%nat. cbn [probe_loop result_state Nat.sub seq_numbers seq map].
    rewrite !app_nil_r, !Nat.add_0_r.
    split; [lia|]. split; [lia|]. split; [lia|]. split; [discriminate|].
    split; [intros j Hj; lia|]. repeat split; auto.
  - destruct ((Count opts =? 0) || (i <? Count opts)) eqn:Hcond;
      [destruct (ctx_done w (3 * k)) eqn:Hpre|].
    2: destruct (ctx_done w (3 * k + 1)) eqn:Hpost.
    + (* cancelled before the attempt *)
      rewrite loop_step_stops by (right; exact Hpre).
      exists 0%nat, 0%nat. cbn [Nat.sub seq_numbers seq map].
      rewrite !app_nil_r, !Nat.add_0_r.
      split; [lia|]. split; [lia|]. split; [lia|]. split; [discriminate|].
      split; [intros j Hj; lia|]. repeat split; auto.
    + (* the call finds the context cancelled: the last one, not counted *)
      rewrite loop_step_cancelled by assumption.
      exists 1%nat, 1%nat. cbn [ls_attempts ls_effects ls_stats].
      rewrite printed_seqs_app, count_notices_app, count_dial_cancels_app.
      replace (k + (1 - 1))%nat with k by lia.
      split; [lia|]. split; [lia|]. split; [lia|]. split; [intros _; exact Hpost|].
      split; [intros j Hj; lia|].
      split; [cbn; do 3 f_equal; lia|].
      split; [unfold infoText, colorText; destruct (ColorOutput opts); reflexivity|].
      split; [unfold infoText, colorText; destruct (ColorOutput opts); cbn;
              now rewrite !app_nil_r|].
      split; [unfold infoText, colorText; destruct (ColorOutput opts); reflexivity|].
      split; [rewrite Nat.sub_diag, Nat.add_0_r; exact Hreach|].
      intros Hne. right. apply orb_true_iff in Hcond.
      destruct Hcond as [H0|Hlt]; [apply Z.eqb_eq in H0; lia|].
      apply Z.ltb_lt in Hlt. lia.
    + (* the call is counted *)
      assert (Hone : Count opts <> 0 -> 1%nat = 0%nat \/ i + Z.of_nat 1 <= Count opts).
      { intros Hne. right. apply orb_true_iff in Hcond.
        destruct Hcond as [H0|Hlt]; [apply Z.eqb_eq in H0; lia|].
        apply Z.ltb_lt in Hlt. lia. }
      assert (Hseq1 : seq_numbers i 1 = [i]) by (cbn; f_equal; lia).
      rewrite loop_step_counted by assumption.
      destruct (attempt_uncancelled_trace w opts address port ip st i)
        as (Ha1 & Hp1 & Hn1 & Hd1 & Hs1).
      set (st1 := attempt_uncancelled w opts address port ip st i) in *.
      assert (Hreach1 : reachable (S n) (ls_stats st1)).
      { rewrite Hs1. apply reach_update; [exact Hreach|].
        intros _. apply elapsed_of_micros_not_nan. }
      assert (Hstop : exists m u : nat,
                (m <= S fuel)%nat /\ (u <= 1)%nat /\ (u <= m)%nat /\
                (u = 1%nat -> ctx_done w (3 * (k + (m - 1)) + 1) = true) /\
                (forall j, (j < m - u)%nat -> ctx_done w (3 * (k + j) + 1) = false) /\
                ls_attempts st1 = ls_attempts st ++ seq_numbers i m /\
                count_dial_cancels (ls_effects st1) =
                  (count_dial_cancels (ls_effects st) + m)%nat /\
                printed_seqs (ls_effects st1) =
                  printed_seqs (ls_effects st) ++ map Strconv.Itoa (seq_numbers i (m - u)) /\
                count_notices (ls_effects st1) = (count_notices (ls_effects st) + u)%nat /\
                reachable (n + (m - u)) (ls_stats st1) /\
                (Count opts <> 0 -> m = 0%nat \/ i + Z.of_nat m <= Count opts)).
      { exists 1%nat, 0%nat. cbn [Nat.sub]. rewrite Hseq1, Ha1, Hp1, Hn1, Hd1.
        split; [lia|]. split; [lia|]. split; [lia|]. split; [discriminate|].
        split; [intros j Hj; replace j with 0%nat by lia;
                rewrite Nat.add_0_r; exact Hpost|].
        split; [reflexivity|]. split; [lia|]. split; [reflexivity|].
        split; [lia|]. split; [|exact Hone].
        replace (n + 1)%nat with (S n) by lia. exact Hreach1. }
      destruct (negb (Count opts =? 0) && (i =? Int64.sub (Count opts) 1));
        [exact Hstop|].
      destruct (ctx_done w (3 * k + 2) && negb (timer_first w k)); [exact Hstop|].
      clear Hstop. rewrite Int64Facts.incr_small by lia.
      destruct (IH (S k) (i + 1) st1 (S n) ltac:(lia) ltac:(lia) Hreach1)
        as (m & u & Hm & Hu & Hum & Hlast & Hbefore & Ha & Hd & Hp & Hn & Hr & Hc).
      exists (S m), u.
      rewrite Ha, Hd, Hp, Hn, Ha1, Hd1, Hp1, Hn1, <- !app_assoc.
      replace (S m - u)%nat with (S (m - u)) by lia.
      rewrite !(seq_numbers_S i). cbn [app map].
      split; [lia|]. split; [lia|]. split; [lia|].
      split; [intros Hu1; specialize (Hlast Hu1);
              replace (k + (S m - 1))%nat with (S k + (m - 1))%nat by lia;
              exact Hlast|].
      split; [intros j Hj; destruct j as [|j];
              [rewrite Nat.add_0_r; exact Hpost
              |replace (k + S j)%nat with (S k + j)%nat by lia;
               apply Hbefore; lia]|].
      split; [reflexivity|]. split; [lia|]. split; [reflexivity|].
      split; [reflexivity|]. split.
      * replace (n + S (m - u))%nat with (S n + (m - u))%nat by lia. exact Hr.
      * intros Hne. right. destruct (Hc Hne) as [->|Hle]; [|lia].
        destruct (Hone Hne); lia.
    + (* the loop condition is false *)
      rewrite loop_step_stops by (left; exact Hcond).
      exists 0%nat, 0%nat. cbn [Nat.sub seq_numbers seq map].
      rewrite !app_nil_r, !Nat.add_0_r.
      split; [lia|]. split; [lia|]. split; [lia|]. split; [discriminate|].
      split; [intros j Hj; lia|]. repeat split; auto.
Qed.


Lemma loop_counts_from fuel :
  forall k i st n,
    reachable n (ls_stats st) ->
    exists n' a,
      reachable n' (ls_stats (result_state (probe_loop w opts address port ip fuel k i st))) /\
      (a <= fuel)%nat /\
      length (ls_attempts (result_state (probe_loop w opts address port ip fuel k i st)))
        = (length (ls_attempts st) + a)%nat /\
      (n' = (n + a)%nat \/ (S n' = (n + a)%nat /\ cancel_at w <> None)).
Proof.
  induction fuel as [|fuel IH]; intros k i st n Hreach.
  - exists n, 0%nat. cbn. split; [exact Hreach|].
    split; [lia|]. split; [lia|]. left; lia.
  - cbn [probe_loop].
    destruct (negb ((Count opts =? 0) || (i <? Count opts)));
      [exists n, 0%nat; cbn; split; [exact Hreach|];
       split; [lia|]; split; [lia|]; left; lia|].
    destruct (ctx_done w (3 * k)) eqn:Hpre;
      [exists n, 0%nat; cbn; split; [exact Hreach|];
       split; [lia|]; split; [lia|]; left; lia|].
    unfold ctx_err_at.
    destruct (ctx_done w (3 * k + 1)) eqn:Hpost.
    + (* the attempt finds the context cancelled: not counted, and the last *)
      rewrite pingOnce_cancelled.
      assert (Hcancel : cancel_at w <> None).
      { unfold ctx_done in Hpost. destruct (cancel_at w); discriminate. }
      set (st' := mkLoopState (ls_stats st) _ (ls_attempts st ++ [i])).
      assert (Hlen : length (ls_attempts st') = (length (ls_attempts st) + 1)%nat)
        by (subst st'; cbn; now rewrite length_app).
      destruct (negb (Count opts =? 0) && (i =? Int64.sub (Count opts) 1));
        [exists n, 1%nat; cbn [result_state]; split; [exact Hreach|];
         split; [lia|]; split; [exact Hlen|]; right; split; [lia | exact Hcancel]|].
      destruct (ctx_done w (3 * k + 2) && negb (timer_first w k));
        [exists n, 1%nat; cbn [result_state]; split; [exact Hreach|];
         split; [lia|]; split; [exact Hlen|]; right; split; [lia | exact Hcancel]|].
      rewrite loop_after_cancel
        by (apply (ctx_done_mono w (3 * k + 1)); [lia | exact Hpost]).
      exists n, 1%nat. split; [exact Hreach|].
      split; [lia|]. split; [exact Hlen|]. right. split; [lia | exact Hcancel].
    + (* the attempt is counted *)
      pose proof (pingOnce_counted address port ip opts None (dial w i)
                    (ls_stats st) i ltac:(discriminate)) as Hcounted.
      destruct (pingOnce None (dial w i) address port (ls_stats st) i ip opts)
        as [stats' effects]. cbn [fst] in Hcounted.
      assert (Hreach' : reachable (S n) stats').
      { rewrite Hcounted. apply reach_update; [exact Hreach|].
        intros _. apply elapsed_of_micros_not_nan. }
      set (st' := mkLoopState stats' _ (ls_attempts st ++ [i])).
      assert (Hlen : length (ls_attempts st') = (length (ls_attempts st) + 1)%nat)
        by (subst st'; cbn; now rewrite length_app).
      destruct (negb (Count opts =? 0) && (i =? Int64.sub (Count opts) 1));
        [exists (S n), 1%nat; cbn [result_state]; split; [exact Hreach'|];
         split; [lia|]; split; [exact Hlen|]; left; lia|].
      destruct (ctx_done w (3 * k + 2) && negb (timer_first w k));
        [exists (S n), 1%nat; cbn [result_state]; split; [exact Hreach'|];
         split; [lia|]; split; [exact Hlen|]; left; lia|].
      destruct (IH (S k) (Int64.incr i) st' (S n) Hreach')
        as (n' & a & Hr & Ha & Hl & Hn).
      exists n', (S a). split; [exact Hr|]. split; [lia|].
      split; [rewrite Hl, Hlen; lia|].
      destruct Hn as [->|[Hn Hc]]; [left; lia | right; split; [lia | exact Hc]].
Qed.

(** X15 (the loop of [main] with pingOnce and Statistics.update).  In every
    run of the loop, for every target and every cancellation, the statistics
    keep the aggregator invariant: [respondedCount <= sentCount] and
    [minTime <= maxTime] once there is a response. *)
Theorem probe_loop_keeps_invariant (fuel : nat) :
  Z.of_nat fuel <= Int64.max_int ->
  stats_inv
    (ls_stats (result_state (probe_loop w opts address port ip fuel 0 0 loop_start))).
Proof.
  intros Hfuel.
  destruct (loop_counts_from fuel 0%nat 0 loop_start 0%nat reach_init)
    as (n' & a & Hr & Ha & _ & Hn).
  apply (reachable_sent n' _ Hr). destruct Hn as [->|[Hn _]]; lia.
Qed.

(** X16 (the loop of [main] with pingOnce).  In every run [sentCount] is the
    number of calls of [pingOnce] that did not find the context cancelled,
    which is also the number of result lines printed.  At most one call, the
    last, found it cancelled: that call is not counted and printed the
    interruption notice instead.  A run that is never cancelled counts every
    call. *)
Theorem probe_loop_counts_attempts (fuel : nat) :
  Z.of_nat fuel <= Int64.max_int ->
  let st := result_state (probe_loop w opts address port ip fuel 0 0 loop_start) in
  exists m u,
    (u <= 1)%nat /\ (u <= m)%nat /\
    count_dial_cancels (ls_effects st) = m /\
    length (ls_attempts st) = m /\
    sentCount (ls_stats st) = Z.of_nat (m - u) /\
    length (printed_seqs (ls_effects st)) = (m - u)%nat /\
    count_notices (ls_effects st) = u /\
    (forall j, (j < m - u)%nat -> ctx_done w (3 * j + 1) = false) /\
    (u = 1%nat -> ctx_done w (3 * (m - 1) + 1) = true) /\
    (cancel_at w = None -> u = 0%nat).
Proof.
  intros Hfuel st.
  destruct (loop_trace_from fuel 0%nat 0 loop_start 0%nat ltac:(lia) ltac:(lia) reach_init)
    as (m & u & Hm & Hu & Hum & Hlast & Hbefore & Ha & Hd & Hp & Hn & Hr & _).
  fold st in Ha, Hd, Hp, Hn, Hr.
  exists m, u.
  split; [exact Hu|]. split; [exact Hum|]. split; [exact Hd|].
  split; [rewrite Ha; cbn; unfold seq_numbers; now rewrite length_map, length_seq|].
  split; [apply (reachable_sent _ _ Hr); lia|].
  split; [rewrite Hp; cbn; unfold seq_numbers;
          now rewrite !length_map, length_seq|].
  split; [exact Hn|]. split; [exact Hbefore|]. split; [exact Hlast|].
  intros Hnone. destruct u as [|[|u]]; [reflexivity| |lia].
  rewrite ctx_done_never in Hlast by exact Hnone. specialize (Hlast eq_refl).
  discriminate.
Qed.

End ProbeLoopMore.


Lemma probe_loop_keeps_invariant_witness :
  stats_inv
    (ls_stats (result_state
      (probe_loop answering_world defaultOptions "127.0.0.1" "80" "127.0.0.1"
                  10 0 0 loop_start))).
Proof.
  apply (probe_loop_keeps_invariant answering_world defaultOptions
           "127.0.0.1" "80" "127.0.0.1" 10).
  unfold Int64.max_int, Int64.half_modulus. cbn. lia.
Defined.

Lemma probe_loop_counts_attempts_witness :
  let st := result_state
              (probe_loop answering_world defaultOptions "127.0.0.1" "80" "127.0.0.1"
                          10 0 0 loop_start) in
  (exists m u,
     (u <= 1)%nat /\ (u <= m)%nat /\
     count_dial_cancels (ls_effects st) = m /\
     length (ls_attempts st) = m /\
     sentCount (ls_stats st) = Z.of_nat (m - u) /\
     length (printed_seqs (ls_effects st)) = (m - u)%nat /\
     count_notices (ls_effects st) = u /\
     (forall j, (j < m - u)%nat -> ctx_done answering_world (3 * j + 1) = false) /\
     (u = 1%nat -> ctx_done answering_world (3 * (m - 1) + 1) = true) /\
     (cancel_at answering_world = None -> u = 0%nat)) /\
  count_dial_cancels (ls_effects st) = 3%nat /\
  sentCount (ls_stats st) = 2 /\
  count_notices (ls_effects st) = 1%nat.
Proof.
  intros st. split; [|repeat split].
  apply (probe_loop_counts_attempts answering_world defaultOptions
           "127.0.0.1" "80" "127.0.0.1" 10).
  unfold Int64.max_int, Int64.half_modulus. cbn. lia.
Defined.

(** ** More on the shutdown of [main] *)

Module ShutdownMore.
Import Shutdown.

Lemma exec_cancelled_step opts a s s' :
  cancelled s = true ->
  is_worker_action a = true ->
  exec opts a s = Some s' ->
  cancelled s' = true /\
  (remaining (worker s') < remaining (worker s))%nat /\
  before_update (worker s') = false /\
  (before_update (worker s) = false -> stats s' = stats s) /\
  (stats s' = stats s \/
   exists elapsed success, stats s' = update (stats s) elapsed success).
Proof.
  destruct s as [pc m c sig st]. cbn [cancelled worker stats]. intros ->.
  destruct a; try discriminate; intros _; unfold exec;
    cbn [main_thread worker cancelled signal_pending stats];
    destruct m, pc; try discriminate;
    repeat match goal with
    | |- context [if ?b then _ else _] => destruct b
    end;
    intros H; injection H as <-; cbn -[update];
    repeat split; auto; try lia; try discriminate;
    right; do 2 eexists; reflexivity.
Qed.

(** X17 (the goroutine of [main] after [cancel()]).  Once the context is
    cancelled the goroutine runs at most five more statements, wherever it
    stood, and at most one of them is a [stats.update]: the one of an attempt
    that had already passed the cancellation check. *)
Theorem worker_winds_down opts (schedule : list action) :
  forall s s',
    cancelled s = true ->
    forallb is_worker_action schedule = true ->
    run_schedule opts schedule s = Some s' ->
    (length schedule <= remaining (worker s))%nat /\
    (length schedule <= 5)%nat /\
    cancelled s' = true /\
    (before_update (worker s) = false -> stats s' = stats s) /\
    (stats s' = stats s \/
     exists elapsed success, stats s' = update (stats s) elapsed success).
Proof.
  assert (Hmax : forall pc, (remaining pc <= 5)%nat) by (destruct pc; cbn; lia).
  induction schedule as [|a rest IH]; intros s s' Hc Hacts Hrun.
  - cbn in Hrun. injection Hrun as <-. cbn. repeat split; auto; lia.
  - cbn in Hacts. apply andb_prop in Hacts. destruct Hacts as [Ha Hrest].
    cbn [run_schedule] in Hrun.
    destruct (exec opts a s) as [s1|] eqn:Hexec; [|discriminate].
    destruct (exec_cancelled_step opts a s s1 Hc Ha Hexec)
      as (Hc1 & Hlt & Hnot & Hsame & Hone).
    destruct (IH s1 s' Hc1 Hrest Hrun) as (Hlen & _ & Hc' & Hsame' & _).
    specialize (Hsame' Hnot). specialize (Hmax (worker s)).
    cbn [length]. repeat split; try lia; try assumption.
    + intros Hb. rewrite Hsame'. auto.
    + rewrite Hsame'. exact Hone.
Qed.

Lemma worker_winds_down_witness :
  let s := mkSystem (Counting 0 sample_connected) AtStatistics true false
                    newStatistics in
  let s' := mkSystem WorkerExited AtStatistics true false
              (update newStatistics (elapsed_of_micros 2500) true) in
  run_schedule defaultOptions
    [WorkerProceeds; WorkerProceeds; WorkerProceeds; TimerFires; WorkerProceeds]
    s = Some s' /\
  (stats s' = stats s \/
   exists elapsed success, stats s' = update (stats s) elapsed success).
Proof.
  intros s s'. split; [reflexivity|].
  destruct (worker_winds_down defaultOptions
    [WorkerProceeds; WorkerProceeds; WorkerProceeds; TimerFires; WorkerProceeds]
    s s' eq_refl eq_refl eq_refl) as (_ & _ & _ & _ & Hone).
  exact Hone.
Defined.

Lemma exec_after_exit opts a s s' :
  worker s = WorkerExited ->
  exec opts a s = Some s' ->
  worker s' = WorkerExited /\ stats s' = stats s /\
  (main_thread s = AtStatistics ->
   main_thread s' = AtStatistics \/ main_thread s' = Printed (getStats (stats s))) /\
  (forall snapshot, main_thread s = Printed snapshot ->
                    main_thread s' = Printed snapshot).
Proof.
  destruct s as [pc m c sig st]. cbn [worker stats main_thread]. intros ->.
  destruct a, m; unfold exec;
    cbn [main_thread worker cancelled signal_pending stats];
    try discriminate;
    repeat match goal with
    | |- context [if ?b then _ else _] => destruct b
    end;
    try discriminate;
    intros H; injection H as <-; cbn; repeat split; auto; discriminate.
Qed.

(** X18 (the [<-done] case of [main]).  When [main] leaves its select through
    [done], the statistics no longer change: whatever is scheduled afterwards,
    the summary that is printed is the snapshot of the final statistics. *)
Theorem done_snapshot_is_final opts (schedule : list action) :
  forall s s1 s2 snapshot,
    exec opts MainTakesDone s = Some s1 ->
    run_schedule opts schedule s1 = Some s2 ->
    main_thread s2 = Printed snapshot ->
    stats s2 = stats s /\ snapshot = getStats (stats s2).
Proof.
  intros s s1 s2 snapshot Hdone.
  pose proof (ShutdownFacts.done_case_waits opts s s1 Hdone) as Hexit.
  assert (H1 : worker s1 = WorkerExited /\ stats s1 = stats s /\
               main_thread s1 = AtStatistics).
  { destruct s as [pc m c sig st]. cbn in Hexit. subst pc.
    unfold exec in Hdone. cbn in Hdone. destruct m; try discriminate.
    injection Hdone as <-. repeat split. }
  destruct H1 as (Hw1 & Hst1 & Hm1). rewrite <- Hst1.
  assert (Hm : main_thread s1 = AtStatistics \/
               main_thread s1 = Printed (getStats (stats s1))) by (left; exact Hm1).
  clear Hdone Hexit Hst1 Hm1. revert s1 Hw1 Hm.
  induction schedule as [|a rest IH]; intros s1 Hw1 Hm Hrun Hprinted.
  - cbn in Hrun. injection Hrun as <-. split; [reflexivity|].
    destruct Hm as [Hm|Hm]; rewrite Hm in Hprinted; [discriminate|].
    now injection Hprinted as <-.
  - cbn [run_schedule] in Hrun.
    destruct (exec opts a s1) as [s'|] eqn:Hexec; [|discriminate].
    destruct (exec_after_exit opts a s1 s' Hw1 Hexec) as (Hw' & Hst' & Hat & Hpr).
    rewrite <- Hst' in *.
    apply (IH s' Hw'); try assumption.
    destruct Hm as [Hm|Hm]; [exact (Hat Hm) | right; exact (Hpr _ Hm)].
Qed.

Lemma done_snapshot_is_final_witness :
  let st := update newStatistics (elapsed_of_micros 300) false in
  let s := mkSystem WorkerExited AtSelect false false st in
  let s2 := mkSystem WorkerExited (Printed (getStats st)) false true st in
  run_schedule (opts_count 1) one_failed_attempt initial = Some s /\
  run_schedule (opts_count 1) [MainTakesDone; Signal; MainProceeds] s = Some s2 /\
  stats s2 = stats s /\
  sentCount (stats s2) = 1.
Proof.
  intros st s s2.
  split; [reflexivity|]. split; [reflexivity|].
  destruct (done_snapshot_is_final (opts_count 1) [Signal; MainProceeds]
              s (mkSystem WorkerExited AtStatistics false false st) s2
              (getStats st) eq_refl eq_refl eq_refl) as [Hsame _].
  split; [exact Hsame | reflexivity].
Defined.

End ShutdownMore.
